(** * Street-network connectivity queries of [script/read_osm_map.py]

    A shallow embedding of the query functions of [read_osm_map.py]
    ([build_node_to_ways_index], [find_ways_by_name],
    [get_way_nodes_with_coords], [find_connected_ways],
    [find_next_street_segments], [find_intersecting_streets]) together with
    the properties that the specification states about them.

    Conventions of the embedding:
    - identifiers, tag keys and tag values are Python [str] values, modelled
      as [string];
    - a Python [dict] is insertion ordered and iterated in that order, so it
      is an association list whose keys are pairwise distinct ([PyDict.wf]);
    - a Python [list] is a [list], a Python [set] of identifiers is a
      [gset string];
    - a [for] loop that appends to (or adds to) an accumulator is a [foldl]
      over the iterated sequence;
    - the result dictionaries with a fixed key set are records. *)

From Stdlib Require Import Ascii.
From stdpp Require Import base strings list gmap.

Open Scope string_scope.
Open Scope list_scope.
Open Scope stdpp_scope.

(** ** Insertion-ordered dictionaries *)

Module PyDict.
Section dict.
Context {K V : Type} `{EqDecision K}.

(** [d.get(k)], [None] when the key is absent. *)
Fixpoint get (k : K) (d : list (K * V)) : option V :=
  match d with
  | [] => None
  | (k', v) :: d' => if decide (k' = k) then Some v else get k d'
  end.

(** [d.get(k, dflt)]. *)
Definition get_default (k : K) (d : list (K * V)) (dflt : V) : V :=
  default dflt (get k d).

(** [k in d]. *)
Definition mem (k : K) (d : list (K * V)) : bool :=
  bool_decide (is_Some (get k d)).

(** [d[k] = v]: an existing key keeps its position, a new key goes last. *)
Fixpoint set (k : K) (v : V) (d : list (K * V)) : list (K * V) :=
  match d with
  | [] => [(k, v)]
  | (k', v') :: d' =>
      if decide (k' = k) then (k', v) :: d' else (k', v') :: set k v d'
  end.

Definition keys (d : list (K * V)) : list K := d.*1.

(** The keys of a dictionary are pairwise distinct. *)
Definition wf (d : list (K * V)) : Prop := NoDup (keys d).

#[global] Instance wf_dec d : Decision (wf d).
Proof. unfold wf. apply _. Defined.
End dict.
End PyDict.

(** [defaultdict(list)]: [d[k].append(v)].  A missing key is first created
    with an empty list, at the end of the dictionary. *)
Fixpoint dd_append (k v : string) (d : list (string * list string))
  : list (string * list string) :=
  match d with
  | [] => [(k, [v])]
  | (k', vs) :: d' =>
      if decide (k' = k) then (k', vs ++ [v]) :: d'
      else (k', vs) :: dd_append k v d'
  end.

(** Number of occurrences of [x] in [l]. *)
Fixpoint occurrences (x : string) (l : list string) : nat :=
  match l with
  | [] => 0
  | y :: l' => (if decide (y = x) then 1 else 0) + occurrences x l'
  end.

(** Python truthiness of a [str]: only the empty string is false. *)
Definition truthy (s : string) : bool := bool_decide (s ≠ "").

(** ** The dataset *)

(** [ways]: way id -> list of node ids; [way_tags]: way id -> (key -> value);
    [node_to_ways]: node id -> list of way ids. *)
Abbreviation ways_t := (list (string * list string)).
Abbreviation tags_t := (list (string * string)).
Abbreviation way_tags_t := (list (string * list (string * string))).
Abbreviation index_t := (list (string * list string)).

(** [way_tags.get(way_id, {}).get('name', '')] *)
Definition name_of (way_id : string) (way_tags : way_tags_t) : string :=
  PyDict.get_default "name" (PyDict.get_default way_id way_tags []) "".

(** ** [build_node_to_ways_index] *)

Definition build_node_to_ways_index (ways : ways_t) : index_t :=
  foldl (fun node_to_ways '(way_id, node_refs) =>
           foldl (fun node_to_ways node_ref =>
                    dd_append node_ref way_id node_to_ways)
                 node_to_ways node_refs)
        [] ways.

(** ** [find_ways_by_name]

    [str.lower] is a parameter of the model. *)

Definition find_ways_by_name (lower : string -> string)
    (street_name : string) (way_tags : way_tags_t) : list string :=
  foldl (fun matching_ways '(way_id, tags) =>
           if decide (lower (PyDict.get_default "name" tags "")
                      = lower street_name)
           then matching_ways ++ [way_id]
           else matching_ways)
        [] way_tags.

(** ASCII lower-casing, an instance of [lower] used in the examples. *)
Definition ascii_lower_char (c : Ascii.ascii) : Ascii.ascii :=
  let n := Ascii.nat_of_ascii c in
  if bool_decide (65 ≤ n ≤ 90)%nat then Ascii.ascii_of_nat (n + 32) else c.

Fixpoint ascii_lower (s : string) : string :=
  match s with
  | EmptyString => EmptyString
  | String c s' => String (ascii_lower_char c) (ascii_lower s')
  end.

(** ** [get_way_nodes_with_coords] *)

Module Coord.
Record t {float : Type} := mk { node_id : string; lat : float; lon : float }.
Arguments t : clear implicits.
Arguments mk {float}.
End Coord.

Section coords.
Context {float : Type}.

Definition get_way_nodes_with_coords (way_id : string) (ways : ways_t)
    (nodes : list (string * (float * float))) : list (Coord.t float) :=
  let way_nodes := PyDict.get_default way_id ways [] in
  foldl (fun result node_ref =>
           match PyDict.get node_ref nodes with
           | Some (lat, lon) => result ++ [Coord.mk node_ref lat lon]
           | None => result
           end)
        [] way_nodes.
End coords.

(** ** [find_connected_ways] *)

Definition find_connected_ways (way_id : string) (ways : ways_t)
    (node_to_ways : index_t) : gset string :=
  let way_nodes := PyDict.get_default way_id ways [] in
  foldl (fun connected_ways node_ref =>
           foldl (fun connected_ways connected_way_id =>
                    if decide (connected_way_id ≠ way_id)
                    then {[connected_way_id]} ∪ connected_ways
                    else connected_ways)
                 connected_ways
                 (PyDict.get_default node_ref node_to_ways []))
        ∅ way_nodes.

(** ** [find_next_street_segments] *)

Module Segment.
Record t := mk
  { way_id : string; name : string; shared_node : string;
    is_same_name : bool }.
#[global] Instance eq_dec : EqDecision t.
Proof. solve_decision. Defined.
End Segment.

Definition find_next_street_segments (way_id : string) (ways : ways_t)
    (node_to_ways : index_t) (way_tags : way_tags_t) : list Segment.t :=
  let result := [] in
  let way_nodes := PyDict.get_default way_id ways [] in
  match way_nodes with
  | [] => result
  | first :: _ =>
      let street_name := name_of way_id way_tags in
      let end_nodes := [first; List.last way_nodes first] in
      foldl (fun result node_ref =>
               foldl (fun result connected_way_id =>
                        if decide (connected_way_id ≠ way_id) then
                          let connected_name :=
                            name_of connected_way_id way_tags in
                          if negb (truthy street_name)
                             || negb (truthy connected_name)
                             || bool_decide (street_name = connected_name)
                          then result ++
                               [Segment.mk connected_way_id connected_name
                                  node_ref
                                  (bool_decide (street_name = connected_name))]
                          else result
                        else result)
                     result
                     (PyDict.get_default node_ref node_to_ways []))
            result end_nodes
  end.

(** ** [find_intersecting_streets] *)

Module Intersection.
Record t := mk { way_id : string; name : string; shared_node : string }.
#[global] Instance eq_dec : EqDecision t.
Proof. solve_decision. Defined.
End Intersection.

Definition find_intersecting_streets (way_id : string) (ways : ways_t)
    (node_to_ways : index_t) (way_tags : way_tags_t) : list Intersection.t :=
  let result := [] in
  let way_nodes := PyDict.get_default way_id ways [] in
  match way_nodes with
  | [] => result
  | _ :: _ =>
      let street_name := name_of way_id way_tags in
      foldl (fun result node_ref =>
               foldl (fun result connected_way_id =>
                        if decide (connected_way_id ≠ way_id) then
                          let connected_name :=
                            name_of connected_way_id way_tags in
                          if truthy street_name && truthy connected_name
                             && bool_decide (street_name ≠ connected_name)
                          then result ++
                               [Intersection.mk connected_way_id
                                  connected_name node_ref]
                          else result
                        else result)
                     result
                     (PyDict.get_default node_ref node_to_ways []))
            result way_nodes
  end.

(** ** Vocabulary of the statements *)

(** [node_to_ways.get(node_ref, [])] *)
Abbreviation bucket node_ref node_to_ways :=
  (PyDict.get_default node_ref node_to_ways ([] : list string)).

(** The nodes scanned by [find_next_street_segments]:
    [[way_nodes[0], way_nodes[-1]]], nothing for a way without nodes. *)
Definition end_nodes (way_nodes : list string) : list string :=
  match way_nodes with
  | [] => []
  | first :: _ => [first; List.last way_nodes first]
  end.

(** The guard of [find_next_street_segments] on a candidate [c]. *)
Definition next_qualifies (way_id : string) (way_tags : way_tags_t)
    (c : string) : Prop :=
  c ≠ way_id ∧
  (name_of way_id way_tags = "" ∨ name_of c way_tags = ""
   ∨ name_of way_id way_tags = name_of c way_tags).

(** The entry that [find_next_street_segments] appends for candidate [c]
    met at [node_ref]. *)
Definition next_entry (way_id : string) (way_tags : way_tags_t)
    (node_ref c : string) : Segment.t :=
  Segment.mk c (name_of c way_tags) node_ref
    (bool_decide (name_of way_id way_tags = name_of c way_tags)).

(** The guard of [find_intersecting_streets] on a candidate [c]. *)
Definition inter_qualifies (way_id : string) (way_tags : way_tags_t)
    (c : string) : Prop :=
  c ≠ way_id ∧ name_of way_id way_tags ≠ "" ∧ name_of c way_tags ≠ ""
  ∧ name_of way_id way_tags ≠ name_of c way_tags.

(** The entry that [find_intersecting_streets] appends for candidate [c]
    met at [node_ref]. *)
Definition inter_entry (way_tags : way_tags_t) (node_ref c : string)
  : Intersection.t :=
  Intersection.mk c (name_of c way_tags) node_ref.

#[global] Instance next_qualifies_dec w t c : Decision (next_qualifies w t c).
Proof. unfold next_qualifies. apply _. Defined.

#[global] Instance inter_qualifies_dec w t c : Decision (inter_qualifies w t c).
Proof. unfold inter_qualifies. apply _. Defined.

(** A scan of the nodes [scanned]: for every node in turn and every way id
    [c] of its bucket in turn, one entry if [c] passes the guard. *)
Definition scan {E : Type} (qual : string → Prop) `{∀ c, Decision (qual c)}
    (entry : string → string → E) (node_to_ways : index_t)
    (scanned : list string) : list E :=
  scanned ≫= fun node_ref =>
    bucket node_ref node_to_ways ≫= fun c =>
      if decide (qual c) then [entry node_ref c] else [].

(** Number of occurrences of [x] in [l], for result entries. *)
Definition count {A} `{EqDecision A} (x : A) (l : list A) : nat :=
  length (filter (x =.) l).

(** Sum of [f] over a list. *)
Definition sum_over {A} (f : A → nat) (l : list A) : nat :=
  foldr (fun x s => f x + s) 0 l.

(** ** The example dataset of the specification

    Nodes A, B, C; way W1 = [A, B] named "Main", W2 = [B, C] named "Main",
    W3 = [B, C] named "Side". *)

Module Ex.
Definition ways : ways_t :=
  [("W1", ["A"; "B"]); ("W2", ["B"; "C"]); ("W3", ["B"; "C"])].
Definition way_tags : way_tags_t :=
  [("W1", [("name", "Main")]); ("W2", [("name", "Main")]);
   ("W3", [("name", "Side")])].
Definition nodes : list (string * (Z * Z)) :=
  [("A", (0, 0)%Z); ("B", (1, 1)%Z); ("C", (2, 2)%Z)].
Definition node_to_ways : index_t := build_node_to_ways_index ways.
End Ex.

(** A way that revisits a node, crossed by a named and by a nameless way:
    W = [A, B, A] named "Main", C = [A, C] named "Side", D = [A] without
    tags. *)
Module Loop.
Definition ways : ways_t :=
  [("W", ["A"; "B"; "A"]); ("C", ["A"; "C"]); ("D", ["A"])].
Definition way_tags : way_tags_t :=
  [("W", [("name", "Main")]); ("C", [("name", "Side")]); ("D", [])].
Definition node_to_ways : index_t := build_node_to_ways_index ways.
End Loop.

(** A way made of a single node: S = [A] named "Main", T = [A, B] named
    "Main". *)
Module Single.
Definition ways : ways_t := [("S", ["A"]); ("T", ["A"; "B"])].
Definition way_tags : way_tags_t :=
  [("S", [("name", "Main")]); ("T", [("name", "Main")])].
Definition node_to_ways : index_t := build_node_to_ways_index ways.
End Single.

(** Two datasets that differ only in the tags of W2 = [B, C]: without a
    [name] tag in the first, with [name] set to the empty string in the
    second.  W1 = [A, B] is named "Main". *)
Module Nameless.
Definition ways : ways_t := [("W1", ["A"; "B"]); ("W2", ["B"; "C"])].
Definition tags_absent : tags_t := [("highway", "residential")].
Definition tags_empty : tags_t := [("highway", "residential"); ("name", "")].
Definition way_tags_absent : way_tags_t :=
  [("W1", [("name", "Main")]); ("W2", tags_absent)].
Definition way_tags_empty : way_tags_t :=
  [("W1", [("name", "Main")]); ("W2", tags_empty)].
Definition node_to_ways : index_t := build_node_to_ways_index ways.
End Nameless.

(** A way with a reference to a node that the node table lacks:
    W1 = [A, X, B] where X has no coordinates, W2 = [B, C]. *)
Module Dangling.
Definition ways : ways_t := [("W1", ["A"; "X"; "B"]); ("W2", ["B"; "C"])].
Definition nodes : list (string * (Z * Z)) :=
  [("A", (0, 0)%Z); ("B", (1, 1)%Z); ("C", (2, 2)%Z)].
End Dangling.

(** Two tag tables over the same way ids, in the same order, in which every
    way has the same [tags.get('name', '')]. *)
Definition same_names (t1 t2 : way_tags_t) : Prop :=
  Forall2 (fun p q => p.1 = q.1
                      ∧ PyDict.get_default "name" p.2 ""
                        = PyDict.get_default "name" q.2 "") t1 t2.

(** The trace entry of a node reference, if the node table resolves it. *)
Definition resolve {float : Type} (nodes : list (string * (float * float)))
    (node_ref : string) : option (Coord.t float) :=
  (fun ll => Coord.mk node_ref ll.1 ll.2) <$> PyDict.get node_ref nodes.

(** ** Printing and exceptions

    A computation that prints lines and either returns a value or raises:
    the lines printed so far, and [Some] result or [None] after an
    exception. *)
Definition out (L A : Type) : Type := (list L * option A)%type.

#[global] Instance out_ret {L} : MRet (out L) := fun A x => ([], Some x).

#[global] Instance out_bind {L} : MBind (out L) := fun A B f m =>
  match m.2 with
  | None => (m.1, None)
  | Some x => (m.1 ++ (f x).1, (f x).2)
  end.

(** [print(l)] *)
Definition print {L} (l : L) : out L unit := ([l], Some tt).

(** [raise] *)
Definition raise {L A} : out L A := ([], None).


(** [for x in l: s = body(s, x)], left at the first exception. *)
Fixpoint for_fold {L S A} (body : S → A → out L S) (s : S) (l : list A)
  : out L S :=
  match l with
  | [] => mret s
  | x :: l' => s' ← body s x; for_fold body s' l'
  end.


(** [enumerate(l)] *)
Definition enumerate {A} (l : list A) : list (nat * A) := imap pair l.

(** ** [parse_osm_file]

    The input is the element tree that [ET.parse] returns, seen through the
    calls that the function makes on it: the [node] children and the [way]
    children of the root, in document order, each with the attributes that
    the function reads ([id], [lat], [lon]; [id], the [ref] of every [nd]
    child, the [k] and [v] of every [tag] child).  The elements carry these
    attributes, as OSM XML requires. *)

Module NodeElem.
Record t := mk { id : string; lat : string; lon : string }.
End NodeElem.

Module WayElem.
Record t := mk
  { id : string; nd : list string; tag : list (string * string) }.
End WayElem.

Module Root.
Record t := mk { nodes : list NodeElem.t; ways : list WayElem.t }.
End Root.

(** The lines printed by [read_osm_map.py]: one constructor per [print]
    statement, with the values that its f-string interpolates. *)
Inductive line {float : Type} : Type :=
  | ParsingFile (file_path : string)
  | NotFoundLine (street_name : string)
  | FoundLine (segments : nat) (street_name : string)
  | SegmentHeader (i total : nat) (way_id : string)
  | RoadTypeLine (highway_type : string)
  | SurfaceLine (surface : string)
  | NodeCountLine (n : nat)
  | NodesHeading
  | NodeLine (j : nat) (node_id : string) (lat lon : float)
  | ContinuationsHeading
  | ContinuationLine (way_id name shared_node same_name_info : string)
  | IntersectionsHeading
  | IntersectionLine (way_id name shared_node : string).
Arguments line : clear implicits.


Section analysis.
Context {float : Type}.

(** [float(s)], which raises [ValueError] on a string that is no number. *)
Context (parse_float : string → option float).

(** [str.lower] *)
Context (lower : string → string).

Definition float_of (s : string) : out (line float) float :=
  match parse_float s with
  | Some x => mret x
  | None => raise
  end.

Definition parse_osm_file (file_path : string) (root : Root.t)
  : out (line float)
        (list (string * (float * float)) * ways_t * way_tags_t) :=
  _ ← print (ParsingFile file_path);
  nodes ← for_fold (fun nodes node =>
                      let node_id := NodeElem.id node in
                      lat ← float_of (NodeElem.lat node);
                      lon ← float_of (NodeElem.lon node);
                      mret (PyDict.set node_id (lat, lon) nodes))
                   [] (Root.nodes root);
  let '(ways, way_tags) :=
    foldl (fun '(ways, way_tags) way =>
             let way_id := WayElem.id way in
             let nd_refs :=
               foldl (fun nd_refs ref => nd_refs ++ [ref]) [] (WayElem.nd way) in
             let tags :=
               foldl (fun tags '(k, v) => PyDict.set k v tags)
                     [] (WayElem.tag way) in
             (PyDict.set way_id nd_refs ways,
              PyDict.set way_id tags way_tags))
          ([], []) (Root.ways root) in
  mret (nodes, ways, way_tags).

(** ** [analyze_street_by_name] *)

End analysis.

(** ** Vocabulary of the statements about parsing and reporting *)

(** The last element of [l] whose key is [k]. *)
Fixpoint last_with {A} (key : A → string) (k : string) (l : list A)
  : option A :=
  match l with
  | [] => None
  | x :: l' =>
      match last_with key k l' with
      | Some y => Some y
      | None => if decide (key x = k) then Some x else None
      end
  end.

(** The elements of [l] without repetitions, in the order of their first
    occurrences. *)
Fixpoint first_occurrences (l : list string) : list string :=
  match l with
  | [] => []
  | x :: l' => x :: filter (fun y => y ≠ x) (first_occurrences l')
  end.

(** The coordinates of a [node] element, if both attributes are numbers. *)
Definition node_coords {float : Type} (parse_float : string → option float)
    (node : NodeElem.t) : option (float * float) :=
  lat ← parse_float (NodeElem.lat node);
  lon ← parse_float (NodeElem.lon node);
  Some (lat, lon).

Section report.
Context {float : Type}.





End report.

(** A reader of unsigned decimal integers, an instance of [float(s)] for the
    examples. *)
Fixpoint digits (s : string) (acc : Z) : option Z :=
  match s with
  | EmptyString => Some acc
  | String c s' =>
      let n := Z.of_nat (Ascii.nat_of_ascii c) in
      if bool_decide (48 ≤ n ≤ 57)%Z then digits s' (10 * acc + (n - 48))%Z
      else None
  end.

Definition decimal (s : string) : option Z :=
  match s with
  | EmptyString => None
  | String _ _ => digits s 0
  end.

(** The example dataset of the specification as a document, with a second
    [way] element for W3 and a repeated [name] tag. *)
Module ExDoc.
Definition root : Root.t :=
  Root.mk
    [NodeElem.mk "A" "0" "0"; NodeElem.mk "B" "1" "1"; NodeElem.mk "C" "2" "2"]
    [WayElem.mk "W1" ["A"; "B"] [("name", "Main"); ("highway", "primary")];
     WayElem.mk "W3" ["A"] [("name", "Old")];
     WayElem.mk "W2" ["B"; "C"] [("name", "Main")];
     WayElem.mk "W3" ["B"; "C"] [("name", "Lane"); ("name", "Side")]].
End ExDoc.

(** * [script/fix_private_roads.py]

    The handler writes bytes that it obtains from [str] values with
    [.encode('utf-8')].  A [str] is modelled as the [string] of its UTF-8
    bytes, so that encoding is the identity; the characters that the script
    tests and replaces are ASCII, and an ASCII byte never occurs inside the
    encoding of another character. *)

(** The double quote and the line feed. *)
Definition dq : string := String (ascii_of_nat 34) EmptyString.
Definition nl : string := String (ascii_of_nat 10) EmptyString.

(** [s.replace(old, new)] for a one-character [old]. *)
Fixpoint replace (old : ascii) (new : string) (s : string) : string :=
  match s with
  | EmptyString => EmptyString
  | String c s' =>
      if decide (c = old) then new +:+ replace old new s'
      else String c (replace old new s')
  end.

(** [s * n] *)
Definition str_mul (s : string) (n : Z) : string :=
  Nat.iter (Z.to_nat n) (String.append s) EmptyString.

(** [_escape_attr]: escape XML attribute values. *)
Definition _escape_attr (text : string) : string :=
  replace (ascii_of_nat 34) "&quot;"
    (replace ">"%char "&gt;"
       (replace "<"%char "&lt;"
          (replace "&"%char "&amp;" text))).

(** [_escape_text]: escape XML text content. *)
Definition _escape_text (text : string) : string :=
  replace ">"%char "&gt;"
    (replace "<"%char "&lt;"
       (replace "&"%char "&amp;" text)).

Module OSMHandler.
Record t := mk
  { current_way : option string;
    in_way : bool;
    is_private : bool;
    is_residential : bool;
    modified_count : nat;
    depth : Z;
    out : string }.

(** [self.out.write(b)] *)
Definition write (h : t) (b : string) : t :=
  mk (current_way h) (in_way h) (is_private h) (is_residential h)
     (modified_count h) (depth h) (out h +:+ b).

Definition set_depth (h : t) (d : Z) : t :=
  mk (current_way h) (in_way h) (is_private h) (is_residential h)
     (modified_count h) d (out h).

(** [__init__]: the output starts with the XML declaration. *)
Definition init : t :=
  mk None false false false 0%nat 0%Z
     ("<?xml version=" +:+ dq +:+ "1.0" +:+ dq +:+ " encoding=" +:+ dq
      +:+ "UTF-8" +:+ dq +:+ "?>" +:+ nl).

(** [for attr_name, attr_value in attrs.items(): self.out.write(...)] *)
Definition write_attrs (h : t) (attrs : list (string * string)) : t :=
  foldl (fun h '(attr_name, attr_value) =>
           write h (" " +:+ attr_name +:+ "=" +:+ dq
                    +:+ _escape_attr attr_value +:+ dq))
        h attrs.

(** [self.current_way in l] *)
Definition current_way_in (h : t) (l : list string) : bool :=
  match current_way h with
  | Some w => bool_decide (w ∈ l)
  | None => false
  end.

Definition start_element (h : t) (name : string)
    (attrs : list (string * string)) : t :=
  let h := set_depth h (depth h + 1)%Z in
  if decide (depth h = 1%Z) then
    write (write_attrs (write h ("<" +:+ name)) attrs) (">" +:+ nl)
  else if decide (name = "way") then
    let h := mk (Some (PyDict.get_default "id" attrs "")) true false false
                (modified_count h) (depth h) (out h) in
    write (write_attrs (write h ("  <" +:+ name)) attrs) (">" +:+ nl)
  else if in_way h && bool_decide (name = "tag") then
    let k := PyDict.get_default "k" attrs "" in
    let v := PyDict.get_default "v" attrs "" in
    if current_way_in h ["506254774"; "171028660"; "491365793"; "206528330";
                         "114895531"]
       && bool_decide (k = "highway")
    then write h ("    <" +:+ name +:+ " k=" +:+ dq +:+ "highway" +:+ dq
                  +:+ " v=" +:+ dq +:+ "construction" +:+ dq +:+ "/>" +:+ nl)
    else if current_way_in h ["331762058"; "952058010"; "116931784";
                              "187536173"]
            && bool_decide (k = "oneway")
    then h
    else if bool_decide (k = "access") && bool_decide (v = "private")
    then mk (current_way h) (in_way h) true (is_residential h)
            (modified_count h) (depth h) (out h)
    else if bool_decide (k = "highway") && bool_decide (v = "construction")
    then write h ("    <" +:+ name +:+ " k=" +:+ dq +:+ "highway" +:+ dq
                  +:+ " v=" +:+ dq +:+ "secondary" +:+ dq +:+ "/>" +:+ nl)
    else write (write_attrs (write h ("    <" +:+ name)) attrs) ("/>" +:+ nl)
  else if in_way h && bool_decide (name = "nd") then
    write (write_attrs (write h ("    <" +:+ name)) attrs) ("/>" +:+ nl)
  else
    let indent := str_mul "  " (depth h - 1)%Z in
    write (write_attrs (write h (indent +:+ "<" +:+ name)) attrs) (">" +:+ nl).

Definition end_element (h : t) (name : string) : t :=
  let h :=
    if bool_decide (name = "way") && in_way h then
      let h := mk (current_way h) false (is_private h) (is_residential h)
                  (modified_count h) (depth h) (out h) in
      let h := write h ("  </way>" +:+ nl) in
      if is_private h || is_residential h then
        mk (current_way h) (in_way h) (is_private h) (is_residential h)
           (modified_count h + 1)%nat (depth h) (out h)
      else h
    else if decide (depth h = 1%Z) then
      write h ("</" +:+ name +:+ ">")
    else if negb (in_way h
                  && (bool_decide (name = "nd") || bool_decide (name = "tag")))
    then
      let indent := str_mul "  " (depth h - 1)%Z in
      write h (indent +:+ "</" +:+ name +:+ ">" +:+ nl)
    else h in
  set_depth h (depth h - 1)%Z.

Section text.
(** [str.strip] *)
Context (strip : string → string).

Definition handle_text (h : t) (content : string) : t :=
  if truthy content && truthy (strip content) then
    let indent := str_mul "  " (depth h) in
    write h (indent +:+ _escape_text content +:+ nl)
  else h.
End text.
End OSMHandler.

(** The events of [etree.iterparse(input_file, events=('start', 'end'))]:
    the tag of the element, and at a start its attributes and its text. *)
Inductive event : Type :=
  | StartEvent (tag : string) (attrib : list (string * string))
      (text : option string)
  | EndEvent (tag : string).

(** Whether an event is a start. *)
Definition is_start (ev : event) : bool :=
  match ev with
  | StartEvent _ _ _ => true
  | EndEvent _ => false
  end.

(** The loop of [process_osm_file] over the events: the handler and the
    counter [total_elements].  The messages on the standard output and the
    checks of the files are outside the model. *)
Definition process_events (strip : string → string)
    (handler : OSMHandler.t) (total_elements : nat) (context : list event)
  : OSMHandler.t * nat :=
  foldl (fun '(handler, total_elements) ev =>
           match ev with
           | StartEvent tag attrib text =>
               let total_elements := total_elements + 1 in
               let attrs := attrib in
               let handler := OSMHandler.start_element handler tag attrs in
               let handler :=
                 match text with
                 | Some text =>
                     if truthy text && truthy (strip text)
                     then OSMHandler.handle_text strip handler text
                     else handler
                 | None => handler
                 end in
               (handler, total_elements)
           | EndEvent tag => (OSMHandler.end_element handler tag, total_elements)
           end)
        (handler, total_elements) context.

(** ** Vocabulary of the statements about [fix_private_roads.py] *)

(** The inverse of the escaping: the four entities back to characters. *)
Fixpoint unescape (s : string) : string :=
  match s with
  | String "&" (String "a" (String "m" (String "p" (String ";" s')))) =>
      String "&" (unescape s')
  | String "&" (String "l" (String "t" (String ";" s'))) =>
      String "<" (unescape s')
  | String "&" (String "g" (String "t" (String ";" s'))) =>
      String ">" (unescape s')
  | String "&" (String "q" (String "u" (String "o" (String "t"
      (String ";" s'))))) =>
      String (ascii_of_nat 34) (unescape s')
  | String c s' => String c (unescape s')
  | EmptyString => EmptyString
  end.

(** What the escaping writes for one character; [quot] tells whether the
    double quote is escaped too. *)
Definition escape_char (quot : bool) (c : ascii) : string :=
  if decide (c = "&"%char) then "&amp;"
  else if decide (c = "<"%char) then "&lt;"
  else if decide (c = ">"%char) then "&gt;"
  else if quot && bool_decide (c = ascii_of_nat 34) then "&quot;"
  else String c EmptyString.

(** An OSM document as [iterparse] walks it: a root element, its child
    elements, and their children, which have no children of their own. *)
Module Leaf.
Record t := mk
  { tag : string; attrib : list (string * string); text : option string }.
End Leaf.

Module Elem.
Record t := mk
  { tag : string; attrib : list (string * string); text : option string;
    children : list Leaf.t }.
End Elem.

Module Doc.
Record t := mk
  { tag : string; attrib : list (string * string); text : option string;
    elems : list Elem.t }.
End Doc.

Definition leaf_events (l : Leaf.t) : list event :=
  [StartEvent (Leaf.tag l) (Leaf.attrib l) (Leaf.text l);
   EndEvent (Leaf.tag l)].

Definition elem_events (e : Elem.t) : list event :=
  StartEvent (Elem.tag e) (Elem.attrib e) (Elem.text e)
  :: (Elem.children e ≫= leaf_events) ++ [EndEvent (Elem.tag e)].

Definition doc_events (d : Doc.t) : list event :=
  StartEvent (Doc.tag d) (Doc.attrib d) (Doc.text d)
  :: (Doc.elems d ≫= elem_events) ++ [EndEvent (Doc.tag d)].

(** No child of a child of the root is called [way]. *)
Definition osm_shaped (d : Doc.t) : Prop :=
  ∀ e l, e ∈ Doc.elems d → l ∈ Elem.children e → Leaf.tag l ≠ "way".

(** A [tag] child with [k="access"] and [v="private"]. *)
Definition is_private_access (l : Leaf.t) : bool :=
  bool_decide (Leaf.tag l = "tag")
  && bool_decide (PyDict.get_default "k" (Leaf.attrib l) "" = "access")
  && bool_decide (PyDict.get_default "v" (Leaf.attrib l) "" = "private").

(** A [way] element with a private access tag among its children. *)
Definition is_private_way (e : Elem.t) : bool :=
  bool_decide (Elem.tag e = "way")
  && existsb is_private_access (Elem.children e).

(** The ways whose [highway] tag is forced to [construction], and the ways
    whose [oneway] tag is dropped. *)
Definition construction_ways : list string :=
  ["506254774"; "171028660"; "491365793"; "206528330"; "114895531"].
Definition oneway_ways : list string :=
  ["331762058"; "952058010"; "116931784"; "187536173"].

Definition concat_str (l : list string) : string :=
  foldr String.append EmptyString l.

Definition render_attrs (attrs : list (string * string)) : string :=
  concat_str ((fun '(attr_name, attr_value) =>
                 " " +:+ attr_name +:+ "=" +:+ dq
                 +:+ _escape_attr attr_value +:+ dq) <$> attrs).

Section render.
Context (strip : string → string).

(** The line of a text, if it is not blank, at depth [d]. *)
Definition render_text (d : Z) (text : option string) : string :=
  match text with
  | Some t =>
      if truthy t && truthy (strip t)
      then str_mul "  " d +:+ _escape_text t +:+ nl
      else ""
  | None => ""
  end.

(** What is written for a [tag] child of the way [way_id]. *)
Definition render_way_tag (way_id : string) (attrs : list (string * string))
  : string :=
  let k := PyDict.get_default "k" attrs "" in
  let v := PyDict.get_default "v" attrs "" in
  if bool_decide (way_id ∈ construction_ways) && bool_decide (k = "highway")
  then "    <tag k=" +:+ dq +:+ "highway" +:+ dq +:+ " v=" +:+ dq
       +:+ "construction" +:+ dq +:+ "/>" +:+ nl
  else if bool_decide (way_id ∈ oneway_ways) && bool_decide (k = "oneway")
  then ""
  else if bool_decide (k = "access") && bool_decide (v = "private")
  then ""
  else if bool_decide (k = "highway") && bool_decide (v = "construction")
  then "    <tag k=" +:+ dq +:+ "highway" +:+ dq +:+ " v=" +:+ dq
       +:+ "secondary" +:+ dq +:+ "/>" +:+ nl
  else "    <tag" +:+ render_attrs attrs +:+ "/>" +:+ nl.

(** What is written for a child of the way [way_id]. *)
Definition render_way_child (way_id : string) (l : Leaf.t) : string :=
  if decide (Leaf.tag l = "tag") then
    render_way_tag way_id (Leaf.attrib l) +:+ render_text 3 (Leaf.text l)
  else if decide (Leaf.tag l = "nd") then
    "    <nd" +:+ render_attrs (Leaf.attrib l) +:+ "/>" +:+ nl
    +:+ render_text 3 (Leaf.text l)
  else
    "    <" +:+ Leaf.tag l +:+ render_attrs (Leaf.attrib l) +:+ ">" +:+ nl
    +:+ render_text 3 (Leaf.text l)
    +:+ "    </" +:+ Leaf.tag l +:+ ">" +:+ nl.

(** What is written for a child of an element that is no way. *)
Definition render_leaf (l : Leaf.t) : string :=
  "    <" +:+ Leaf.tag l +:+ render_attrs (Leaf.attrib l) +:+ ">" +:+ nl
  +:+ render_text 3 (Leaf.text l)
  +:+ "    </" +:+ Leaf.tag l +:+ ">" +:+ nl.

(** What is written for a child of the root. *)
Definition render_elem (e : Elem.t) : string :=
  "  <" +:+ Elem.tag e +:+ render_attrs (Elem.attrib e) +:+ ">" +:+ nl
  +:+ render_text 2 (Elem.text e)
  +:+ concat_str
        ((if decide (Elem.tag e = "way")
          then render_way_child (PyDict.get_default "id" (Elem.attrib e) "")
          else render_leaf) <$> Elem.children e)
  +:+ "  </" +:+ Elem.tag e +:+ ">" +:+ nl.

(** The file that the script writes for a document. *)
Definition render_doc (d : Doc.t) : string :=
  OSMHandler.out OSMHandler.init
  +:+ "<" +:+ Doc.tag d +:+ render_attrs (Doc.attrib d) +:+ ">" +:+ nl
  +:+ render_text 1 (Doc.text d)
  +:+ concat_str (render_elem <$> Doc.elems d)
  +:+ "</" +:+ Doc.tag d +:+ ">".
End render.

(** [str.strip] restricted to blanks, an instance for the examples. *)
Fixpoint lstrip (s : string) : string :=
  match s with
  | String c s' =>
      if bool_decide (c = " "%char ∨ c = ascii_of_nat 10) then lstrip s' else s
  | EmptyString => EmptyString
  end.
Definition strip_blanks (s : string) : string :=
  String.rev (lstrip (String.rev (lstrip s))).

(** A small OSM document: a node with a private access tag, a private
    residential way, a way under construction whose id is in the first
    list, and a way with a text that needs escaping. *)
Module ExOsm.
Definition doc : Doc.t :=
  Doc.mk "osm" [("version", "0.6")] (Some (nl +:+ "  "))
    [Elem.mk "node" [("id", "1"); ("lat", "52.1"); ("lon", "21.0")] None
       [Leaf.mk "tag" [("k", "access"); ("v", "private")] None];
     Elem.mk "way" [("id", "10")] None
       [Leaf.mk "nd" [("ref", "1")] None;
        Leaf.mk "tag" [("k", "highway"); ("v", "residential")] None;
        Leaf.mk "tag" [("k", "access"); ("v", "private")] None;
        Leaf.mk "tag" [("k", "name"); ("v", "A<B & C")] None];
     Elem.mk "way" [("id", "171028660")] None
       [Leaf.mk "tag" [("k", "highway"); ("v", "primary")] None;
        Leaf.mk "tag" [("k", "oneway"); ("v", "yes")] None];
     Elem.mk "way" [("id", "331762058")] None
       [Leaf.mk "tag" [("k", "highway"); ("v", "construction")] None;
        Leaf.mk "tag" [("k", "oneway"); ("v", "yes")] (Some "x > y")]].
End ExOsm.

(** Decide a closed decidable proposition by evaluation. *)
Ltac by_compute := apply (bool_decide_unpack _); vm_compute; exact I.

Example ex_index :
  Ex.node_to_ways = [("A", ["W1"]); ("B", ["W1"; "W2"; "W3"]); ("C", ["W2"; "W3"])].
Proof. reflexivity. Qed.

Example ex_next :
  find_next_street_segments "W1" Ex.ways Ex.node_to_ways Ex.way_tags
  = [Segment.mk "W2" "Main" "B" true].
Proof. reflexivity. Qed.

Example ex_inter :
  find_intersecting_streets "W1" Ex.ways Ex.node_to_ways Ex.way_tags
  = [Intersection.mk "W3" "Side" "B"].
Proof. reflexivity. Qed.

Example ex_names :
  find_ways_by_name ascii_lower "main" Ex.way_tags = ["W1"; "W2"].
Proof. reflexivity. Qed.

Example ex_connected :
  find_connected_ways "W1" Ex.ways Ex.node_to_ways = {["W2"; "W3"]}.
Proof. vm_compute. reflexivity. Qed.

Example ex_coords :
  get_way_nodes_with_coords "W1" Ex.ways Ex.nodes
  = [Coord.mk "A" 0%Z 0%Z; Coord.mk "B" 1%Z 1%Z].
Proof. reflexivity. Qed.

(** ** Loops that append are binds *)

Section loops.
Context {A B : Type}.

(** A loop whose body appends [g x] to the accumulator computes the
    concatenation of the [g x], after the initial accumulator. *)
Lemma foldl_append (step : list B → A → list B) (g : A → list B) :
  (∀ acc x, step acc x = acc ++ g x) →
  ∀ l acc, foldl step acc l = acc ++ (l ≫= g).
Proof.
  intros Hstep l. induction l as [|x l IH]; intros acc; simpl.
  - by rewrite app_nil_r.
  - rewrite IH, Hstep. by rewrite <- app_assoc.
Qed.
End loops.

Section occurrences.
Lemma occurrences_app x l1 l2 :
  occurrences x (l1 ++ l2) = occurrences x l1 + occurrences x l2.
Proof. induction l1 as [|y l1 IH]; simpl; [done|]. rewrite IH. lia. Qed.

Lemma occurrences_replicate x y k :
  occurrences x (replicate k y) = if decide (y = x) then k else 0.
Proof.
  induction k as [|k IH]; simpl; [by case_decide|].
  rewrite IH. by case_decide.
Qed.

Lemma occurrences_pos x l : 0 < occurrences x l ↔ x ∈ l.
Proof.
  induction l as [|y l IH]; simpl.
  - split; [lia | by intros ?%not_elem_of_nil].
  - rewrite elem_of_cons. case_decide; subst.
    + split; [by left | lia].
    + rewrite <- IH. split.
      * intros; right; lia.
      * intros [?|?]; [congruence | lia].
Qed.
End occurrences.

(** ** Dictionaries *)

Section dict_facts.
Context {K V : Type} `{EqDecision K}.
Implicit Types (d : list (K * V)) (k : K) (v : V).

Lemma get_Some_elem_of d k v : PyDict.get k d = Some v → (k, v) ∈ d.
Proof.
  induction d as [|[k' v'] d IH]; simpl; [done|].
  case_decide; subst.
  - intros [= ->]. apply list_elem_of_here.
  - intros ?. apply list_elem_of_further. auto.
Qed.

Lemma get_None_keys d k : PyDict.get k d = None ↔ k ∉ PyDict.keys d.
Proof.
  unfold PyDict.keys. induction d as [|[k' v'] d IH]; simpl.
  - split; [intros _; apply not_elem_of_nil | done].
  - rewrite not_elem_of_cons. case_decide; subst.
    + split; [done | intros [? _]; done].
    + rewrite IH. split; [intros ?; split; [congruence|done] | by intros [_ ?]].
Qed.

Lemma elem_of_get d k v : PyDict.wf d → (k, v) ∈ d → PyDict.get k d = Some v.
Proof.
  unfold PyDict.wf, PyDict.keys.
  induction d as [|[k' v'] d IH]; simpl.
  - by intros _ ?%not_elem_of_nil.
  - intros [Hk Hd]%NoDup_cons [[= -> ->]|Hin]%elem_of_cons.
    + by rewrite decide_True.
    + rewrite decide_False; [auto|].
      intros ->. apply Hk. apply list_elem_of_fmap. by exists (k, v).
Qed.

(** Assignment keeps the keys distinct, so every dictionary built from
    [{}] by assignments is well formed. *)
Lemma keys_set d k v :
  PyDict.keys (PyDict.set k v d)
  = if decide (k ∈ PyDict.keys d) then PyDict.keys d
    else PyDict.keys d ++ [k].
Proof.
  unfold PyDict.keys. induction d as [|[k' v'] d IH].
  - destruct (decide (k ∈ ([] : list (K * V)).*1)) as [Hin|_]; [|done].
    by apply not_elem_of_nil in Hin.
  - cbn [PyDict.set]. destruct (decide (k' = k)) as [->|Hne].
    + destruct (decide (k ∈ ((k, v') :: d).*1)) as [_|Hnin]; [done|].
      destruct Hnin. apply list_elem_of_here.
    + rewrite fmap_cons, IH, fmap_cons. cbn [fst].
      destruct (decide (k ∈ d.*1)) as [Hin|Hnin];
        destruct (decide (k ∈ k' :: d.*1)) as [Hin'|Hnin']; try done.
      * destruct Hnin'. by apply list_elem_of_further.
      * apply elem_of_cons in Hin' as [?|?]; [congruence | done].
Qed.

Lemma set_wf d k v : PyDict.wf d → PyDict.wf (PyDict.set k v d).
Proof.
  unfold PyDict.wf. rewrite keys_set. case_decide as Hk; [done|].
  intros Hd. apply NoDup_app. split_and!; [done | | apply NoDup_singleton].
  by intros x Hx ->%list_elem_of_singleton.
Qed.
End dict_facts.

(** ** The adjacency index in closed form *)

Lemma bucket_dd_append n k v (d : index_t) :
  bucket n (dd_append k v d)
  = if decide (k = n) then bucket n d ++ [v] else bucket n d.
Proof.
  unfold PyDict.get_default.
  induction d as [|[k' vs] d IH]; simpl.
  - by repeat case_decide.
  - destruct (decide (k' = k)) as [->|Hne]; simpl.
    + by case_decide.
    + destruct (decide (k' = n)) as [->|Hne'].
      * by rewrite decide_False by done.
      * apply IH.
  Qed.

Lemma bucket_way n w refs (d : index_t) :
  bucket n (foldl (fun d r => dd_append r w d) d refs)
  = bucket n d ++ replicate (occurrences n refs) w.
Proof.
  revert d. induction refs as [|r refs IH]; intros d; simpl.
  - by rewrite app_nil_r.
  - rewrite IH, bucket_dd_append. case_decide; simpl; [|done].
    by rewrite <- app_assoc.
Qed.

Lemma bucket_ways n (ways : ways_t) (d : index_t) :
  bucket n (foldl (fun d '(w, refs) => foldl (fun d r => dd_append r w d) d refs)
                  d ways)
  = bucket n d ++ (ways ≫= fun '(w, refs) => replicate (occurrences n refs) w).
Proof.
  revert d. induction ways as [|[w refs] ways IH]; intros d; simpl.
  - by rewrite app_nil_r.
  - rewrite IH, bucket_way. by rewrite <- app_assoc.
Qed.

(** The bucket of [n] lists, in the order in which the ways were processed,
    every way once per occurrence of [n] in its node sequence. *)
Lemma bucket_build n (ways : ways_t) :
  bucket n (build_node_to_ways_index ways)
  = ways ≫= fun '(w, refs) => replicate (occurrences n refs) w.
Proof. unfold build_node_to_ways_index. by rewrite bucket_ways. Qed.

Lemma elem_of_bucket_build w n (ways : ways_t) :
  w ∈ bucket n (build_node_to_ways_index ways)
  ↔ ∃ refs, (w, refs) ∈ ways ∧ n ∈ refs.
Proof.
  rewrite bucket_build, list_elem_of_bind. split.
  - intros [[w' refs] [Hin ?]]. apply elem_of_replicate in Hin as [-> Hocc].
    exists refs. split; [done|]. apply occurrences_pos. lia.
  - intros (refs & ? & Hn). exists (w, refs). split; [|done].
    apply elem_of_replicate. split; [done|].
    apply occurrences_pos in Hn. lia.
Qed.

(** ** The two scans in closed form *)

Lemma truthy_spec s : truthy s = true ↔ s ≠ "".
Proof. unfold truthy. by rewrite bool_decide_eq_true. Qed.

Lemma next_guard_spec a b :
  negb (truthy a) || negb (truthy b) || bool_decide (a = b) = true
  ↔ a = "" ∨ b = "" ∨ a = b.
Proof.
  unfold truthy. rewrite !orb_true_iff, !negb_true_iff.
  rewrite !bool_decide_eq_false, bool_decide_eq_true.
  split; (intros [[?|?]|?]; [| |]) || intros [?|[?|?]]; auto.
  - left. by apply dec_stable.
  - right; left. by apply dec_stable.
Qed.

Lemma inter_guard_spec a b :
  truthy a && truthy b && bool_decide (a ≠ b) = true
  ↔ a ≠ "" ∧ b ≠ "" ∧ a ≠ b.
Proof.
  unfold truthy. rewrite !andb_true_iff, !bool_decide_eq_true. tauto.
Qed.

Lemma find_next_closed way_id ways node_to_ways way_tags :
  find_next_street_segments way_id ways node_to_ways way_tags
  = scan (next_qualifies way_id way_tags) (next_entry way_id way_tags)
      node_to_ways (end_nodes (PyDict.get_default way_id ways [])).
Proof.
  unfold scan, find_next_street_segments, end_nodes.
  destruct (PyDict.get_default way_id ways []) as [|first rest]; [done|].
  rewrite foldl_append with (g := fun node_ref =>
    bucket node_ref node_to_ways ≫= fun c =>
      if decide (next_qualifies way_id way_tags c)
      then [next_entry way_id way_tags node_ref c] else []); [done|].
  intros acc node_ref. apply foldl_append. intros acc' c.
  unfold next_qualifies, next_entry.
  destruct (negb _ || _ || _) eqn:Hg.
  - apply next_guard_spec in Hg.
    destruct (decide (c ≠ way_id)).
    + by rewrite decide_True by done.
    + rewrite decide_False by tauto. by rewrite app_nil_r.
  - assert (¬ (name_of way_id way_tags = "" ∨ name_of c way_tags = ""
               ∨ name_of way_id way_tags = name_of c way_tags)) as Hn.
    { rewrite <- next_guard_spec, Hg. done. }
    rewrite (decide_False (P := _ ∧ _)) by tauto.
    rewrite app_nil_r. by destruct (decide (c ≠ way_id)).
Qed.

Lemma find_inter_closed way_id ways node_to_ways way_tags :
  find_intersecting_streets way_id ways node_to_ways way_tags
  = scan (inter_qualifies way_id way_tags) (inter_entry way_tags)
      node_to_ways (PyDict.get_default way_id ways []).
Proof.
  unfold scan, find_intersecting_streets.
  destruct (PyDict.get_default way_id ways []) as [|first rest] eqn:Hw; [done|].
  rewrite foldl_append with (g := fun node_ref =>
    bucket node_ref node_to_ways ≫= fun c =>
      if decide (inter_qualifies way_id way_tags c)
      then [inter_entry way_tags node_ref c] else []); [done|].
  intros acc node_ref. apply foldl_append. intros acc' c.
  unfold inter_qualifies, inter_entry.
  destruct (truthy _ && _ && _) eqn:Hg.
  - apply inter_guard_spec in Hg.
    destruct (decide (c ≠ way_id)).
    + by rewrite decide_True by done.
    + rewrite decide_False by tauto. by rewrite app_nil_r.
  - assert (¬ (name_of way_id way_tags ≠ "" ∧ name_of c way_tags ≠ ""
               ∧ name_of way_id way_tags ≠ name_of c way_tags)) as Hn.
    { rewrite <- inter_guard_spec, Hg. done. }
    rewrite (decide_False (P := _ ∧ _)) by tauto.
    rewrite app_nil_r. by destruct (decide (c ≠ way_id)).
Qed.

(** ** Scans: membership and multiplicities *)

Section scan_facts.
Context {E : Type} `{EqDecision E}.
Context (qual : string → Prop) `{∀ c, Decision (qual c)}.
Context (entry : string → string → E) (way_of node_of : E → string).
Hypothesis way_of_entry : ∀ n c, way_of (entry n c) = c.
Hypothesis node_of_entry : ∀ n c, node_of (entry n c) = n.
Implicit Types (idx : index_t) (scanned b : list string).

Lemma elem_of_scan e idx scanned :
  e ∈ scan qual entry idx scanned
  ↔ ∃ n c, n ∈ scanned ∧ c ∈ bucket n idx ∧ qual c ∧ e = entry n c.
Proof.
  unfold scan. rewrite list_elem_of_bind. split.
  - intros (n & (c & He & Hc)%list_elem_of_bind & Hn).
    case_decide; [|by apply not_elem_of_nil in He].
    apply list_elem_of_singleton in He. by exists n, c.
  - intros (n & c & Hn & Hc & Hq & ->). exists n. split; [|done].
    apply list_elem_of_bind. exists c. split; [|done].
    rewrite decide_True by done. apply list_elem_of_here.
Qed.

Lemma scan_app idx s1 s2 :
  scan qual entry idx (s1 ++ s2)
  = scan qual entry idx s1 ++ scan qual entry idx s2.
Proof. unfold scan. apply bind_app. Qed.

Lemma length_filter_bind {A B} (P : B → Prop) `{∀ y, Decision (P y)}
    (g : A → list B) (l : list A) :
  length (filter P (l ≫= g)) = sum_over (fun x => length (filter P (g x))) l.
Proof.
  induction l as [|x l IH]; [done|].
  rewrite bind_cons, filter_app, length_app, IH. done.
Qed.

(** Entries for candidate [c] produced by one bucket. *)
Lemma way_count_bucket c n b :
  qual c →
  length (filter (fun e => way_of e = c)
            (b ≫= fun c' => if decide (qual c') then [entry n c'] else []))
  = occurrences c b.
Proof.
  intros Hc. induction b as [|c' b IH]; [done|].
  rewrite bind_cons, filter_app, length_app, IH. simpl occurrences.
  destruct (decide (c' = c)) as [->|Hne].
  - rewrite decide_True by done.
    rewrite filter_cons, decide_True by apply way_of_entry. done.
  - destruct (decide (qual c')); [|done].
    rewrite filter_cons, decide_False; [done|].
    by rewrite way_of_entry.
Qed.

(** Copies of the entry of [(n, c)] produced by the bucket of [n']. *)
Lemma entry_count_bucket c n n' b :
  qual c →
  count (entry n c)
    (b ≫= fun c' => if decide (qual c') then [entry n' c'] else [])
  = if decide (n' = n) then occurrences c b else 0.
Proof.
  intros Hc. unfold count. induction b as [|c' b IH]; [by case_decide|].
  rewrite bind_cons, filter_app, length_app, IH. simpl occurrences.
  destruct (decide (qual c')) as [Hq|Hq].
  - rewrite filter_cons.
    destruct (decide (entry n c = entry n' c')) as [Heq|Hne].
    + assert (c' = c) as -> by by rewrite <- (way_of_entry n' c'), <- Heq.
      assert (n' = n) as -> by by rewrite <- (node_of_entry n' c), <- Heq.
      by rewrite !decide_True by done.
    + destruct (decide (n' = n)) as [->|?]; [|done].
      rewrite decide_False; [done|]. by intros ->.
  - destruct (decide (c' = c)) as [->|?]; [done|]. by case_decide.
Qed.

Lemma sum_over_indicator n k scanned :
  sum_over (fun n' => if decide (n' = n) then k else 0) scanned
  = occurrences n scanned * k.
Proof.
  induction scanned as [|n' scanned IH]; [done|].
  simpl. rewrite IH. case_decide; lia.
Qed.

(** One copy of the entry of [(n, c)] per occurrence of [n] among the
    scanned nodes and occurrence of [c] in the bucket of [n]. *)
Lemma entry_count_scan c n idx scanned :
  qual c →
  count (entry n c) (scan qual entry idx scanned)
  = occurrences n scanned * occurrences c (bucket n idx).
Proof.
  intros Hc. unfold count, scan. rewrite length_filter_bind.
  rewrite <- sum_over_indicator. induction scanned as [|n' scanned IH]; [done|].
  simpl. rewrite IH. f_equal.
  pose proof (entry_count_bucket c n n' (bucket n' idx) Hc) as Hb.
  unfold count in Hb. rewrite Hb. by case_decide; subst.
Qed.

(** All the entries for candidate [c]: one per scanned node occurrence and
    occurrence of [c] in the bucket of that node. *)
Lemma way_count_scan c idx scanned :
  qual c →
  length (filter (fun e => way_of e = c) (scan qual entry idx scanned))
  = sum_over (fun n => occurrences c (bucket n idx)) scanned.
Proof.
  intros Hc. unfold scan. rewrite length_filter_bind.
  induction scanned as [|n scanned IH]; [done|].
  simpl. by rewrite IH, way_count_bucket.
Qed.

(** A candidate that fails the guard has no entry. *)
Lemma way_count_scan_0 c idx scanned :
  ¬ qual c →
  filter (fun e => way_of e = c) (scan qual entry idx scanned) = [].
Proof.
  intros Hc.
  destruct (filter _ _) as [|e l] eqn:Hf; [done|].
  assert (e ∈ filter (fun e => way_of e = c) (scan qual entry idx scanned))
    as [Hw (n & c' & _ & _ & Hq & ->)%elem_of_scan]%list_elem_of_filter
    by (rewrite Hf; apply list_elem_of_here).
  rewrite way_of_entry in Hw. by subst.
Qed.
End scan_facts.

(** ** Membership in the three relations *)

Lemma elem_of_find_next e way_id ways node_to_ways way_tags :
  e ∈ find_next_street_segments way_id ways node_to_ways way_tags
  ↔ ∃ node_ref c,
      node_ref ∈ end_nodes (PyDict.get_default way_id ways [])
      ∧ c ∈ bucket node_ref node_to_ways
      ∧ next_qualifies way_id way_tags c
      ∧ e = next_entry way_id way_tags node_ref c.
Proof. rewrite find_next_closed. apply elem_of_scan. Qed.

Lemma elem_of_find_inter e way_id ways node_to_ways way_tags :
  e ∈ find_intersecting_streets way_id ways node_to_ways way_tags
  ↔ ∃ node_ref c,
      node_ref ∈ PyDict.get_default way_id ways []
      ∧ c ∈ bucket node_ref node_to_ways
      ∧ inter_qualifies way_id way_tags c
      ∧ e = inter_entry way_tags node_ref c.
Proof. rewrite find_inter_closed. apply elem_of_scan. Qed.

Lemma elem_of_connected_bucket way_id (b : list string) (acc : gset string) x :
  x ∈ foldl (fun connected_ways connected_way_id =>
               if decide (connected_way_id ≠ way_id)
               then {[connected_way_id]} ∪ connected_ways
               else connected_ways) acc b
  ↔ x ∈ acc ∨ (x ≠ way_id ∧ x ∈ b).
Proof.
  revert acc. induction b as [|c b IH]; intros acc; simpl.
  - split; [by left | intros [?|[_ ?%not_elem_of_nil]]; done].
  - rewrite IH, elem_of_cons. destruct (decide (c ≠ way_id)) as [Hc|Hc].
    + rewrite elem_of_union, elem_of_singleton. split.
      * intros [[->|?]|[? ?]]; auto.
      * intros [?|[? [->|?]]]; auto.
    + apply dec_stable in Hc. subst c. split.
      * intros [?|[? ?]]; auto.
      * intros [?|[? [->|?]]]; auto. done.
Qed.

Lemma elem_of_find_connected x way_id ways node_to_ways :
  x ∈ find_connected_ways way_id ways node_to_ways
  ↔ x ≠ way_id
    ∧ ∃ node_ref, node_ref ∈ PyDict.get_default way_id ways []
                  ∧ x ∈ bucket node_ref node_to_ways.
Proof.
  unfold find_connected_ways.
  generalize (PyDict.get_default way_id ways []) as way_nodes.
  intros way_nodes.
  assert (∀ acc : gset string,
    x ∈ foldl (fun connected_ways node_ref =>
                 foldl (fun connected_ways connected_way_id =>
                          if decide (connected_way_id ≠ way_id)
                          then {[connected_way_id]} ∪ connected_ways
                          else connected_ways)
                       connected_ways (bucket node_ref node_to_ways))
              acc way_nodes
    ↔ x ∈ acc ∨ (x ≠ way_id ∧ ∃ node_ref, node_ref ∈ way_nodes
                                  ∧ x ∈ bucket node_ref node_to_ways)) as H.
  { induction way_nodes as [|n ns IH]; intros acc; simpl.
    - split; [by left | intros [?|[_ (? & ?%not_elem_of_nil & _)]]; done].
    - rewrite IH, elem_of_connected_bucket. split.
      + intros [[?|[? ?]]|[? (m & ? & ?)]]; [by left | |].
        * right. split; [done|]. exists n. split; [apply list_elem_of_here|done].
        * right. split; [done|]. exists m.
          split; [by apply list_elem_of_further|done].
      + intros [?|[? (m & [->|?]%elem_of_cons & ?)]]; [by left; left | |].
        * left; right. done.
        * right. split; [done|]. by exists m. }
  rewrite H. split; [intros [?%not_elem_of_empty|?]; done | by right].
Qed.

Lemma last_elem_of {A} (l : list A) (x d : A) : List.last (x :: l) d ∈ x :: l.
Proof.
  revert x. induction l as [|y l IH]; intros x.
  - apply list_elem_of_here.
  - apply list_elem_of_further. exact (IH y).
Qed.

Lemma end_nodes_subseteq (way_nodes : list string) n :
  n ∈ end_nodes way_nodes → n ∈ way_nodes.
Proof.
  destruct way_nodes as [|first rest]; simpl; [done|].
  intros [->|Hn%list_elem_of_singleton]%elem_of_cons.
  - apply list_elem_of_here.
  - subst n. apply (last_elem_of rest first first).
Qed.

(** ** Adjacency Index Builder *)

(** C8: in the index built from a dataset (a dictionary of ways, so with
    pairwise distinct way ids), the bucket of node [n] contains the id of a
    way exactly as many times as [n] occurs in the node sequence of that way;
    a way that revisits [n] is listed once per visit. *)
Theorem index_bucket_multiplicity (ways : ways_t) (w n : string) :
  PyDict.wf ways →
  occurrences w (bucket n (build_node_to_ways_index ways))
  = occurrences n (PyDict.get_default w ways []).
Proof.
  rewrite bucket_build. unfold PyDict.wf, PyDict.keys, PyDict.get_default.
  induction ways as [|[w' refs] ways IH]; [done|].
  rewrite fmap_cons. intros [Hw Hnd]%NoDup_cons. specialize (IH Hnd).
  rewrite bind_cons, occurrences_app, occurrences_replicate, IH.
  cbn [PyDict.get fst]. destruct (decide (w' = w)) as [->|Hne]; [|done].
  rewrite (proj2 (get_None_keys ways w)) by done. simpl. lia.
Qed.

Lemma index_bucket_multiplicity_witness :
  PyDict.wf [("L", ["A"; "B"; "A"]); ("M", ["B"])]
  ∧ occurrences "L"
      (bucket "A"
         (build_node_to_ways_index [("L", ["A"; "B"; "A"]); ("M", ["B"])]))
    = occurrences "A"
        (PyDict.get_default "L" [("L", ["A"; "B"; "A"]); ("M", ["B"])] []).
Proof.
  assert (Hwf : PyDict.wf [("L", ["A"; "B"; "A"]); ("M", ["B"])])
    by (apply (bool_decide_unpack _); vm_compute; exact I).
  split; [exact Hwf | exact (index_bucket_multiplicity _ "L" "A" Hwf)].
Defined.

(** ** Connectivity Classifier *)

(** C4: [find_connected_ways] of a way is the union, over all the nodes of
    its node sequence, of the index buckets of these nodes, minus the way
    itself; so it never contains the way itself. *)
Theorem connected_ways_union_minus_self
    (way_id : string) (ways : ways_t) (node_to_ways : index_t) :
  find_connected_ways way_id ways node_to_ways
  = ⋃ ((fun node_ref => list_to_set (bucket node_ref node_to_ways))
         <$> PyDict.get_default way_id ways []) ∖ {[way_id]}
  ∧ way_id ∉ find_connected_ways way_id ways node_to_ways.
Proof.
  split.
  - apply set_eq. intros x.
    rewrite elem_of_find_connected, elem_of_difference, elem_of_union_list.
    rewrite not_elem_of_singleton. split.
    + intros (Hx & n & Hn & Hb). split; [|done].
      exists (list_to_set (bucket n node_to_ways)). split.
      * apply list_elem_of_fmap. by exists n.
      * by apply elem_of_list_to_set.
    + intros [(X & (n & -> & Hn)%list_elem_of_fmap & Hx) Hne]. split; [done|].
      exists n. split; [done|]. by apply elem_of_list_to_set in Hx.
  - rewrite elem_of_find_connected. by intros [? _].
Qed.

(** C5: [find_intersecting_streets] scans every node of the way, and reports
    a way [c] met in a bucket only when [c] is another way, both names are
    non-empty and the names differ; the entry records [c], its name and the
    shared node.  A way whose name is absent or empty, or equal to the name
    of the queried way, is never reported. *)
Theorem intersecting_streets_characterised
    (way_id : string) (ways : ways_t) (node_to_ways : index_t)
    (way_tags : way_tags_t) :
  (∀ e, e ∈ find_intersecting_streets way_id ways node_to_ways way_tags
        ↔ ∃ node_ref c,
            node_ref ∈ PyDict.get_default way_id ways []
            ∧ c ∈ bucket node_ref node_to_ways
            ∧ c ≠ way_id
            ∧ name_of way_id way_tags ≠ ""
            ∧ name_of c way_tags ≠ ""
            ∧ name_of way_id way_tags ≠ name_of c way_tags
            ∧ e = Intersection.mk c (name_of c way_tags) node_ref)
  ∧ (∀ c, name_of way_id way_tags = "" ∨ name_of c way_tags = ""
          ∨ name_of c way_tags = name_of way_id way_tags →
          c ∉ Intersection.way_id
                <$> find_intersecting_streets way_id ways node_to_ways way_tags).
Proof.
  split.
  - intros e. rewrite elem_of_find_inter. unfold inter_qualifies, inter_entry.
    split; intros (n & c & ?); exists n, c; tauto.
  - intros c Hc (e & -> & He)%list_elem_of_fmap.
    apply elem_of_find_inter in He as (n & c & _ & _ & Hq & ->).
    unfold inter_qualifies in Hq. simpl in Hc.
    destruct Hc as [?|[?|?]]; [tauto | tauto |]. destruct Hq as (_ & _ & _ & Hq).
    by apply Hq.
Qed.

Lemma intersecting_streets_characterised_witness :
  Intersection.mk "W3" "Side" "B"
    ∈ find_intersecting_streets "W1" Ex.ways Ex.node_to_ways Ex.way_tags
  ∧ "W2" ∉ Intersection.way_id
             <$> find_intersecting_streets "W1" Ex.ways Ex.node_to_ways
                   Ex.way_tags.
Proof.
  destruct (intersecting_streets_characterised "W1" Ex.ways Ex.node_to_ways
              Ex.way_tags) as [Hin Hout].
  split.
  - apply Hin. exists "B", "W3". repeat split; by_compute.
  - apply Hout. right; right. reflexivity.
Defined.

(** C6: every way id reported by [find_intersecting_streets] is in
    [find_connected_ways], and so is every way id of an entry of
    [find_next_street_segments]. *)
Theorem reported_ways_are_connected
    (way_id : string) (ways : ways_t) (node_to_ways : index_t)
    (way_tags : way_tags_t) :
  list_to_set (Intersection.way_id
                 <$> find_intersecting_streets way_id ways node_to_ways way_tags)
    ⊆ find_connected_ways way_id ways node_to_ways
  ∧ list_to_set (Segment.way_id
                   <$> find_next_street_segments way_id ways node_to_ways way_tags)
      ⊆ find_connected_ways way_id ways node_to_ways.
Proof.
  split; intros x (e & -> & He)%elem_of_list_to_set%list_elem_of_fmap;
    apply elem_of_find_connected.
  - apply elem_of_find_inter in He as (n & c & Hn & Hc & [Hne _] & ->).
    split; [done|]. by exists n.
  - apply elem_of_find_next in He as (n & c & Hn & Hc & [Hne _] & ->).
    split; [done|]. exists n. split; [|done]. by apply end_nodes_subseteq.
Qed.

(** C10: the results of [find_next_street_segments] and of
    [find_intersecting_streets] are lists with one entry per pair of a
    scanned node occurrence and an occurrence of the candidate in the bucket
    of that node.  The entry of a qualifying candidate [c] for node [n]
    occurs (occurrences of [n] among the scanned nodes) times (occurrences of
    [c] in the bucket of [n]) times, and the entries for [c] are as many as
    the sum over the scanned nodes of the occurrences of [c] in their
    buckets; nothing is deduplicated. *)
Theorem scan_results_keep_multiplicity
    (way_id : string) (ways : ways_t) (node_to_ways : index_t)
    (way_tags : way_tags_t) (c n : string) :
  let way_nodes := PyDict.get_default way_id ways [] in
  let next := find_next_street_segments way_id ways node_to_ways way_tags in
  let inter := find_intersecting_streets way_id ways node_to_ways way_tags in
  (next_qualifies way_id way_tags c →
     count (next_entry way_id way_tags n c) next
     = occurrences n (end_nodes way_nodes) * occurrences c (bucket n node_to_ways)
     ∧ length (filter (fun e => Segment.way_id e = c) next)
       = sum_over (fun n' => occurrences c (bucket n' node_to_ways))
           (end_nodes way_nodes))
  ∧ (inter_qualifies way_id way_tags c →
     count (inter_entry way_tags n c) inter
     = occurrences n way_nodes * occurrences c (bucket n node_to_ways)
     ∧ length (filter (fun e => Intersection.way_id e = c) inter)
       = sum_over (fun n' => occurrences c (bucket n' node_to_ways)) way_nodes).
Proof.
  intros way_nodes next inter. subst next inter way_nodes.
  rewrite find_next_closed, find_inter_closed. split; intros Hc; split.
  - by apply (entry_count_scan _ _ Segment.way_id Segment.shared_node).
  - by apply (way_count_scan _ _ Segment.way_id).
  - by apply (entry_count_scan _ _ Intersection.way_id Intersection.shared_node).
  - by apply (way_count_scan _ _ Intersection.way_id).
Qed.

Lemma scan_results_keep_multiplicity_witness :
  next_qualifies "W" Loop.way_tags "D"
  ∧ inter_qualifies "W" Loop.way_tags "C"
  ∧ count (Segment.mk "D" "" "A" false)
      (find_next_street_segments "W" Loop.ways Loop.node_to_ways Loop.way_tags)
    = 2
  ∧ count (Intersection.mk "C" "Side" "A")
      (find_intersecting_streets "W" Loop.ways Loop.node_to_ways Loop.way_tags)
    = 2.
Proof.
  assert (Hd : next_qualifies "W" Loop.way_tags "D") by by_compute.
  assert (Hc : inter_qualifies "W" Loop.way_tags "C") by by_compute.
  split_and!; [exact Hd | exact Hc | |].
  - exact (proj1 (proj1 (scan_results_keep_multiplicity
                           "W" Loop.ways Loop.node_to_ways Loop.way_tags
                           "D" "A") Hd)).
  - exact (proj1 (proj2 (scan_results_keep_multiplicity
                           "W" Loop.ways Loop.node_to_ways Loop.way_tags
                           "C" "A") Hc)).
Defined.

(** The claim C1 as the specification words it fails on the example of the
    specification itself: W3 = [B, C] named "Side" shares the last node B of
    W1 = [A, B] named "Main", and [find_next_street_segments] reports no
    entry for W3. *)
Lemma next_segments_differing_names_counterexample :
  PyDict.get "W1" Ex.ways = Some ["A"; "B"]
  ∧ PyDict.get "W3" Ex.ways = Some ["B"; "C"]
  ∧ name_of "W1" Ex.way_tags = "Main"
  ∧ name_of "W3" Ex.way_tags = "Side"
  ∧ find_next_street_segments "W1" Ex.ways Ex.node_to_ways Ex.way_tags
    = [Segment.mk "W2" "Main" "B" true]
  ∧ Segment.mk "W3" "Side" "B" false
      ∉ find_next_street_segments "W1" Ex.ways Ex.node_to_ways Ex.way_tags.
Proof. split_and!; try reflexivity. by_compute. Qed.

(** C1, amended: for a way W with a non-empty node sequence and another way
    C of the dataset that contains the first or the last node [n] of W, the
    result of [find_next_street_segments] for W contains the entry recording
    C, the name of C, the shared node [n] and the boolean (name of W = name
    of C), provided that the name of W is empty or absent, or the name of C
    is empty or absent, or the two names are equal; when both names are
    non-empty and differ, the result has no entry for C. *)
Theorem next_segments_candidate
    (ways : ways_t) (way_tags : way_tags_t)
    (W C n first : string) (rest cn : list string) :
  PyDict.get W ways = Some (first :: rest) →
  n = first ∨ n = List.last (first :: rest) first →
  C ≠ W →
  PyDict.get C ways = Some cn →
  n ∈ cn →
  let result :=
    find_next_street_segments W ways (build_node_to_ways_index ways) way_tags in
  (name_of W way_tags = "" ∨ name_of C way_tags = ""
   ∨ name_of W way_tags = name_of C way_tags →
   Segment.mk C (name_of C way_tags) n
     (bool_decide (name_of W way_tags = name_of C way_tags)) ∈ result)
  ∧ (name_of W way_tags ≠ "" → name_of C way_tags ≠ "" →
     name_of W way_tags ≠ name_of C way_tags →
     C ∉ Segment.way_id <$> result).
Proof.
  intros HW Hn HCW HC Hcn result. subst result. split.
  - intros Hnames. apply elem_of_find_next. exists n, C.
    split_and!; [| |done|done].
    + unfold PyDict.get_default. rewrite HW. simpl.
      destruct Hn as [->| ->]; [apply list_elem_of_here|].
      apply list_elem_of_further, list_elem_of_here.
    + apply elem_of_bucket_build. exists cn. split; [|done].
      by apply get_Some_elem_of.
  - intros H1 H2 H3 (e & -> & He)%list_elem_of_fmap.
    apply elem_of_find_next in He as (m & c & _ & _ & [_ Hq] & ->).
    simpl in *. tauto.
Qed.

Lemma next_segments_candidate_witness :
  Segment.mk "W2" "Main" "B" true
    ∈ find_next_street_segments "W1" Ex.ways
        (build_node_to_ways_index Ex.ways) Ex.way_tags
  ∧ "W3" ∉ Segment.way_id
             <$> find_next_street_segments "W1" Ex.ways
                   (build_node_to_ways_index Ex.ways) Ex.way_tags.
Proof.
  split.
  - apply (next_segments_candidate Ex.ways Ex.way_tags "W1" "W2" "B" "A"
             ["B"] ["B"; "C"]);
      [reflexivity | right; reflexivity | by_compute | reflexivity
      | by_compute | right; right; reflexivity].
  - apply (next_segments_candidate Ex.ways Ex.way_tags "W1" "W3" "B" "A"
             ["B"] ["B"; "C"]);
      [reflexivity | right; reflexivity | by_compute | reflexivity
      | by_compute | by_compute | by_compute | by_compute].
Defined.

(** The claim C3 as the specification words it fails: for S = [A], the
    only other way through A, which occurs once in the bucket of A, is
    reported twice. *)
Lemma single_node_way_counterexample :
  PyDict.get "S" Single.ways = Some ["A"]
  ∧ occurrences "T" (bucket "A" Single.node_to_ways) = 1
  ∧ find_next_street_segments "S" Single.ways Single.node_to_ways
      Single.way_tags
    = [Segment.mk "T" "Main" "A" true; Segment.mk "T" "Main" "A" true].
Proof. split_and!; reflexivity. Qed.

(** C3, amended: for a way whose node sequence is the single node [n], the
    list of end nodes is [[n, n]], so [find_next_street_segments] scans the
    bucket of [n] twice: its result is the entries of one scan of that
    bucket followed by the same entries again, and the entry of a qualifying
    candidate occurs twice per occurrence of the candidate in the bucket. *)
Theorem single_node_way_scanned_twice
    (way_id : string) (ways : ways_t) (node_to_ways : index_t)
    (way_tags : way_tags_t) (n : string) :
  PyDict.get_default way_id ways [] = [n] →
  let once := scan (next_qualifies way_id way_tags)
                (next_entry way_id way_tags) node_to_ways [n] in
  find_next_street_segments way_id ways node_to_ways way_tags = once ++ once
  ∧ ∀ c, next_qualifies way_id way_tags c →
         count (next_entry way_id way_tags n c)
           (find_next_street_segments way_id ways node_to_ways way_tags)
         = 2 * occurrences c (bucket n node_to_ways).
Proof.
  intros Hn once. subst once. rewrite find_next_closed, Hn. split.
  - by rewrite <- scan_app.
  - intros c Hc.
    rewrite (entry_count_scan _ _ Segment.way_id Segment.shared_node) by done.
    simpl. by rewrite decide_True by done.
Qed.

Lemma single_node_way_scanned_twice_witness :
  PyDict.get_default "S" Single.ways [] = ["A"]
  ∧ next_qualifies "S" Single.way_tags "T"
  ∧ count (Segment.mk "T" "Main" "A" true)
      (find_next_street_segments "S" Single.ways Single.node_to_ways
         Single.way_tags)
    = 2.
Proof.
  assert (Hq : next_qualifies "S" Single.way_tags "T") by by_compute.
  split_and!; [reflexivity | exact Hq |].
  exact (proj2 (single_node_way_scanned_twice "S" Single.ways
                  Single.node_to_ways Single.way_tags "A" eq_refl) "T" Hq).
Defined.

(** ** Names: absent and empty *)

Lemma same_names_name_of t1 t2 w :
  same_names t1 t2 → name_of w t1 = name_of w t2.
Proof.
  unfold name_of, PyDict.get_default at 2 4.
  induction 1 as [|[w1 g1] [w2 g2] t1 t2 [Hk Hn] _ IH]; [done|].
  simpl in *. subst w2. by case_decide.
Qed.

(** [find_ways_by_name] keeps, in the order of the table, the ids of the
    ways whose lower-cased name equals the lower-cased query. *)
Lemma find_ways_by_name_closed lower q (way_tags : way_tags_t) :
  find_ways_by_name lower q way_tags
  = (filter (fun p => lower (PyDict.get_default "name" p.2 "") = lower q)
       way_tags).*1.
Proof.
  unfold find_ways_by_name.
  rewrite foldl_append with (g := fun p : string * tags_t =>
    if decide (lower (PyDict.get_default "name" p.2 "") = lower q)
    then [p.1] else []).
  - simpl. induction way_tags as [|[w tags] way_tags IH]; [done|].
    rewrite bind_cons, filter_cons, IH. simpl. by case_decide.
  - intros acc [w tags]. simpl. case_decide; [done | by rewrite app_nil_r].
Qed.

Lemma same_names_find_ways_by_name lower q t1 t2 :
  same_names t1 t2 →
  find_ways_by_name lower q t1 = find_ways_by_name lower q t2.
Proof.
  rewrite !find_ways_by_name_closed.
  induction 1 as [|[w1 g1] [w2 g2] t1 t2 [Hk Hn] _ IH]; [done|].
  simpl in Hk, Hn. subst w2. rewrite !filter_cons. simpl. rewrite Hn.
  case_decide; [|done]. rewrite !fmap_cons. simpl. by f_equal.
Qed.

Lemma scan_ext {E} (q1 q2 : string → Prop)
    `{∀ c, Decision (q1 c)} `{∀ c, Decision (q2 c)}
    (e1 e2 : string → string → E) idx scanned :
  (∀ c, q1 c ↔ q2 c) → (∀ n c, e1 n c = e2 n c) →
  scan q1 e1 idx scanned = scan q2 e2 idx scanned.
Proof.
  intros Hq He. unfold scan.
  induction scanned as [|n scanned IH]; [done|].
  rewrite !bind_cons, IH. f_equal.
  induction (bucket n idx) as [|c b IHb]; [done|].
  rewrite !bind_cons, IHb, He. f_equal.
  destruct (decide (q1 c)) as [H1|H1]; destruct (decide (q2 c)) as [H2|H2];
    try done; apply Hq in H1 || apply Hq in H2; done.
Qed.

(** The claim C2 as the specification words it fails: W2 has no [name] tag
    in one dataset and an empty [name] in the other, and the three
    operations answer the same on both; the name that is exposed for W2 is
    the empty string in both. *)
Lemma absent_name_counterexample :
  PyDict.get "name" Nameless.tags_absent = None
  ∧ PyDict.get "name" Nameless.tags_empty = Some ""
  ∧ find_ways_by_name ascii_lower "" Nameless.way_tags_absent = ["W2"]
  ∧ find_ways_by_name ascii_lower "" Nameless.way_tags_empty = ["W2"]
  ∧ find_next_street_segments "W1" Nameless.ways Nameless.node_to_ways
      Nameless.way_tags_absent
    = [Segment.mk "W2" "" "B" false]
  ∧ find_next_street_segments "W1" Nameless.ways Nameless.node_to_ways
      Nameless.way_tags_empty
    = [Segment.mk "W2" "" "B" false]
  ∧ find_intersecting_streets "W1" Nameless.ways Nameless.node_to_ways
      Nameless.way_tags_absent
    = []
  ∧ find_intersecting_streets "W1" Nameless.ways Nameless.node_to_ways
      Nameless.way_tags_empty
    = [].
Proof. split_and!; reflexivity. Qed.

(** C2, amended: the three operations read the name of a way as
    [tags.get('name', '')], so a way without [name] tag is treated exactly
    as a way whose [name] is the empty string: on two tag tables that agree
    on this reading for every way, [find_ways_by_name],
    [find_next_street_segments] and [find_intersecting_streets] return the
    same results, and the name recorded in an entry for a way without [name]
    tag is the empty string. *)
Theorem absent_name_read_as_empty (t1 t2 : way_tags_t) :
  same_names t1 t2 →
  (∀ lower q, find_ways_by_name lower q t1 = find_ways_by_name lower q t2)
  ∧ (∀ way_id ways node_to_ways,
       find_next_street_segments way_id ways node_to_ways t1
       = find_next_street_segments way_id ways node_to_ways t2)
  ∧ (∀ way_id ways node_to_ways,
       find_intersecting_streets way_id ways node_to_ways t1
       = find_intersecting_streets way_id ways node_to_ways t2)
  ∧ (∀ way_id ways node_to_ways e tags,
       e ∈ find_next_street_segments way_id ways node_to_ways t1 →
       PyDict.get (Segment.way_id e) t1 = Some tags →
       PyDict.get "name" tags = None →
       Segment.name e = "").
Proof.
  intros Hs. split_and!.
  - intros lower q. by apply same_names_find_ways_by_name.
  - intros way_id ways idx. rewrite !find_next_closed. apply scan_ext.
    + intros c. unfold next_qualifies.
      by rewrite !(same_names_name_of t1 t2).
    + intros n c. unfold next_entry. by rewrite !(same_names_name_of t1 t2).
  - intros way_id ways idx. rewrite !find_inter_closed. apply scan_ext.
    + intros c. unfold inter_qualifies.
      by rewrite !(same_names_name_of t1 t2).
    + intros n c. unfold inter_entry. by rewrite !(same_names_name_of t1 t2).
  - intros way_id ways idx e tags (n & c & _ & _ & _ & ->)%elem_of_find_next.
    simpl. intros Ht Hn. unfold name_of, PyDict.get_default.
    rewrite Ht. simpl. by rewrite Hn.
Qed.

Lemma absent_name_read_as_empty_witness :
  same_names Nameless.way_tags_absent Nameless.way_tags_empty
  ∧ find_ways_by_name ascii_lower "" Nameless.way_tags_absent
    = find_ways_by_name ascii_lower "" Nameless.way_tags_empty
  ∧ find_next_street_segments "W1" Nameless.ways Nameless.node_to_ways
      Nameless.way_tags_absent
    = find_next_street_segments "W1" Nameless.ways Nameless.node_to_ways
        Nameless.way_tags_empty.
Proof.
  assert (Hs : same_names Nameless.way_tags_absent Nameless.way_tags_empty)
    by (repeat constructor).
  destruct (absent_name_read_as_empty _ _ Hs) as (Hname & Hnext & _).
  split_and!; [exact Hs | apply Hname | apply Hnext].
Defined.

(** ** Segment Lookup *)

Lemma ascii_lower_empty s : ascii_lower s = "" ↔ s = "".
Proof. by destruct s. Qed.

(** C7: [find_ways_by_name] returns, in the order of the tag table, exactly
    the ways whose name, lower-cased, equals the lower-cased query (the name
    being read as [tags.get('name', '')]); for a non-empty query these are
    exactly the ways that have a [name] tag whose lower-cased value equals
    the lower-cased query, and a way without [name] tag is never returned;
    when no way matches the result is the empty list.  [lower] stands for
    [str.lower], which maps the empty string, and only it, to the empty
    string. *)
Theorem find_ways_by_name_exact
    (lower : string → string) (q : string) (way_tags : way_tags_t) :
  (∀ s, lower s = "" ↔ s = "") →
  PyDict.wf way_tags →
  let result := find_ways_by_name lower q way_tags in
  result
  = (filter (fun p => lower (PyDict.get_default "name" p.2 "") = lower q)
       way_tags).*1
  ∧ (∀ w, w ∈ result
          ↔ ∃ tags, PyDict.get w way_tags = Some tags
                    ∧ lower (PyDict.get_default "name" tags "") = lower q)
  ∧ (q ≠ "" →
     ∀ w, w ∈ result
          ↔ ∃ tags v, PyDict.get w way_tags = Some tags
                      ∧ PyDict.get "name" tags = Some v
                      ∧ lower v = lower q)
  ∧ (q ≠ "" →
     ∀ w tags, PyDict.get w way_tags = Some tags →
               PyDict.get "name" tags = None → w ∉ result)
  ∧ ((∀ w tags, PyDict.get w way_tags = Some tags →
                lower (PyDict.get_default "name" tags "") ≠ lower q) →
     result = []).
Proof.
  intros Hlower Hwf result.
  assert (Hclosed : result
    = (filter (fun p => lower (PyDict.get_default "name" p.2 "") = lower q)
         way_tags).*1) by apply find_ways_by_name_closed.
  assert (Hmem : ∀ w, w ∈ result
          ↔ ∃ tags, PyDict.get w way_tags = Some tags
                    ∧ lower (PyDict.get_default "name" tags "") = lower q).
  { intros w. rewrite Hclosed, list_elem_of_fmap. split.
    - intros ([w' tags] & -> & [Hq Hin]%list_elem_of_filter).
      exists tags. split; [by apply elem_of_get | done].
    - intros (tags & Hg & Hq). exists (w, tags). split; [done|].
      apply list_elem_of_filter. split; [done | by apply get_Some_elem_of]. }
  assert (Hq0 : q ≠ "" → lower q ≠ "").
  { intros Hq Hl. apply Hq. by apply Hlower. }
  split_and!; [done | done | | |].
  - intros Hq w. rewrite Hmem. unfold PyDict.get_default. split.
    + intros (tags & Hg & Hl). exists tags.
      destruct (PyDict.get "name" tags) as [v|] eqn:Hv; simpl in Hl.
      * by exists v.
      * destruct (Hq0 Hq). rewrite <- Hl. by apply Hlower.
    + intros (tags & v & Hg & Hv & Hl). exists tags. by rewrite Hv.
  - intros Hq w tags Hg Hn (tags' & Hg' & Hl)%Hmem.
    assert (tags' = tags) as -> by congruence.
    unfold PyDict.get_default in Hl. rewrite Hn in Hl. simpl in Hl.
    destruct (Hq0 Hq). rewrite <- Hl. by apply Hlower.
  - intros Hnone. apply elem_of_nil_inv.
    intros w (tags & Hg & Hl)%Hmem. destruct (Hnone w tags Hg Hl).
Qed.

Lemma find_ways_by_name_exact_witness :
  PyDict.wf Ex.way_tags
  ∧ find_ways_by_name ascii_lower "main" Ex.way_tags = ["W1"; "W2"]
  ∧ ("W3" ∉ find_ways_by_name ascii_lower "main" Ex.way_tags)
  ∧ (find_ways_by_name ascii_lower "Nowhere" Ex.way_tags = []).
Proof.
  assert (Hwf : PyDict.wf Ex.way_tags) by by_compute.
  split_and!; [exact Hwf | | |].
  - exact (proj1 (find_ways_by_name_exact ascii_lower "main" Ex.way_tags
                    ascii_lower_empty Hwf)).
  - intros Hin.
    apply (proj1 (proj1 (proj2 (find_ways_by_name_exact ascii_lower "main"
                                  Ex.way_tags ascii_lower_empty Hwf)) "W3"))
      in Hin as (tags & Hg & Hl).
    injection Hg as <-. discriminate Hl.
  - apply (find_ways_by_name_exact ascii_lower "Nowhere" Ex.way_tags
             ascii_lower_empty Hwf).
    intros w tags Hg. vm_compute in Hg.
    repeat (case_match; [injection Hg as <-; discriminate|]). discriminate.
Defined.

(** ** Node references without coordinates *)

Section trace.
Context {float : Type}.
Implicit Types nodes : list (string * (float * float)).

(** The coordinate trace lists, in the order of the node sequence, the
    references that the node table resolves. *)
Lemma get_way_nodes_with_coords_closed way_id ways nodes :
  get_way_nodes_with_coords way_id ways nodes
  = omap (resolve nodes) (PyDict.get_default way_id ways []).
Proof.
  unfold get_way_nodes_with_coords.
  rewrite foldl_append with (g := fun r => option_list (resolve nodes r)).
  - simpl. induction (PyDict.get_default way_id ways []) as [|r l IH]; [done|].
    rewrite bind_cons, IH. simpl. by destruct (resolve nodes r).
  - intros acc r. unfold resolve.
    destruct (PyDict.get r nodes) as [[lat lon]|]; simpl; [done|].
    by rewrite app_nil_r.
Qed.

Lemma trace_node_ids way_id ways nodes :
  Coord.node_id <$> get_way_nodes_with_coords way_id ways nodes
  = filter (fun r => is_Some (PyDict.get r nodes))
      (PyDict.get_default way_id ways []).
Proof.
  rewrite get_way_nodes_with_coords_closed.
  induction (PyDict.get_default way_id ways []) as [|r l IH]; [done|].
  rewrite filter_cons. simpl. unfold resolve at 1.
  destruct (PyDict.get r nodes) as [[lat lon]|]; simpl.
  - f_equal. exact IH.
  - exact IH.
Qed.
End trace.

(** C9: a way [w] whose node sequence has a reference [n] that the node
    table lacks is still listed in the index bucket of [n]; [w] and every
    other way of the dataset that shares some node of [w] are connected to
    each other by [find_connected_ways]; and [get_way_nodes_with_coords]
    returns, without failing, the trace of the references that resolve, in
    the order of the node sequence and each with the coordinates of the node
    table, leaving out only the references that do not resolve. *)
Theorem dangling_reference_tolerated {float : Type}
    (ways : ways_t) (nodes : list (string * (float * float)))
    (w n : string) (refs : list string) :
  PyDict.get w ways = Some refs →
  n ∈ refs →
  PyDict.get n nodes = None →
  let node_to_ways := build_node_to_ways_index ways in
  let trace := get_way_nodes_with_coords w ways nodes in
  w ∈ bucket n node_to_ways
  ∧ (∀ c crefs m,
       c ≠ w → PyDict.get c ways = Some crefs → m ∈ crefs → m ∈ refs →
       w ∈ find_connected_ways c ways node_to_ways
       ∧ c ∈ find_connected_ways w ways node_to_ways)
  ∧ trace = omap (resolve nodes) refs
  ∧ Coord.node_id <$> trace
    = filter (fun r => is_Some (PyDict.get r nodes)) refs
  ∧ (∀ e, e ∈ trace →
          PyDict.get (Coord.node_id e) nodes = Some (Coord.lat e, Coord.lon e))
  ∧ n ∉ Coord.node_id <$> trace.
Proof.
  intros Hw Hn Hmiss node_to_ways trace. subst node_to_ways trace.
  assert (Hrefs : PyDict.get_default w ways [] = refs)
    by (unfold PyDict.get_default; by rewrite Hw).
  split_and!.
  - apply elem_of_bucket_build. exists refs.
    split; [by apply get_Some_elem_of | done].
  - intros c crefs m Hne Hc Hmc Hmw.
    rewrite !elem_of_find_connected. split; (split; [done|]); exists m.
    + split; [unfold PyDict.get_default; by rewrite Hc|].
      apply elem_of_bucket_build. exists refs.
      split; [by apply get_Some_elem_of | done].
    + split; [by rewrite Hrefs|].
      apply elem_of_bucket_build. exists crefs.
      split; [by apply get_Some_elem_of | done].
  - by rewrite get_way_nodes_with_coords_closed, Hrefs.
  - by rewrite trace_node_ids, Hrefs.
  - intros e. rewrite get_way_nodes_with_coords_closed.
    intros (r & _ & Hr)%list_elem_of_omap. unfold resolve in Hr.
    destruct (PyDict.get r nodes) as [[lat lon]|] eqn:Hg; [|done].
    simpl in Hr. injection Hr as <-. done.
  - rewrite trace_node_ids.
    intros [[? Hsome] _]%list_elem_of_filter. congruence.
Qed.

Lemma dangling_reference_tolerated_witness :
  PyDict.get "X" Dangling.nodes = None
  ∧ "W1" ∈ bucket "X" (build_node_to_ways_index Dangling.ways)
  ∧ "W1" ∈ find_connected_ways "W2" Dangling.ways
             (build_node_to_ways_index Dangling.ways)
  ∧ get_way_nodes_with_coords "W1" Dangling.ways Dangling.nodes
    = [Coord.mk "A" 0%Z 0%Z; Coord.mk "B" 1%Z 1%Z].
Proof.
  pose proof (dangling_reference_tolerated Dangling.ways Dangling.nodes
                "W1" "X" ["A"; "X"; "B"] eq_refl ltac:(by_compute) eq_refl)
    as (Hidx & Hconn & Htrace & _).
  split_and!; [reflexivity | exact Hidx | | exact Htrace].
  apply (Hconn "W2" ["B"; "C"] "B");
    [by_compute | reflexivity | by_compute | by_compute].
Defined.

(** * Further properties of the query functions *)

(** ** The index as a dictionary *)

Lemma keys_dd_append k v (d : index_t) :
  PyDict.keys (dd_append k v d)
  = if decide (k ∈ PyDict.keys d) then PyDict.keys d else PyDict.keys d ++ [k].
Proof.
  unfold PyDict.keys. induction d as [|[k' vs] d IH].
  - destruct (decide (k ∈ ([] : index_t).*1)) as [Hin|_]; [|done].
    by apply not_elem_of_nil in Hin.
  - cbn [dd_append]. destruct (decide (k' = k)) as [->|Hne].
    + destruct (decide (k ∈ ((k, vs) :: d).*1)) as [_|Hnin]; [done|].
      destruct Hnin. apply list_elem_of_here.
    + rewrite fmap_cons, IH, fmap_cons. cbn [fst].
      destruct (decide (k ∈ d.*1)) as [Hin|Hnin];
        destruct (decide (k ∈ k' :: d.*1)) as [Hin'|Hnin']; try done.
      * destruct Hnin'. by apply list_elem_of_further.
      * apply elem_of_cons in Hin' as [?|?]; [congruence | done].
Qed.

Lemma dd_append_wf k v (d : index_t) : PyDict.wf d → PyDict.wf (dd_append k v d).
Proof.
  unfold PyDict.wf. rewrite keys_dd_append. case_decide as Hk; [done|].
  intros Hd. apply NoDup_app. split_and!; [done | | apply NoDup_singleton].
  by intros x Hx ->%list_elem_of_singleton.
Qed.

Lemma dd_append_nonempty k v (d : index_t) :
  Forall (fun p => p.2 ≠ []) d → Forall (fun p => p.2 ≠ []) (dd_append k v d).
Proof.
  induction 1 as [|[k' vs] d Hvs Hd IH]; simpl.
  - by repeat constructor.
  - case_decide; constructor; simpl in *; try done.
    by destruct vs.
Qed.

Lemma dd_append_size k v (d : index_t) :
  sum_over (fun p => length p.2) (dd_append k v d)
  = S (sum_over (fun p => length p.2) d).
Proof.
  induction d as [|[k' vs] d IH]; simpl; [done|].
  case_decide; simpl.
  - rewrite length_app. simpl. lia.
  - rewrite IH. lia.
Qed.

(** An invariant of the two loops of [build_node_to_ways_index]. *)
Lemma build_invariant (P : index_t → Prop) (ways : ways_t) :
  P [] → (∀ k v d, P d → P (dd_append k v d)) →
  P (build_node_to_ways_index ways).
Proof.
  intros H0 Hstep. unfold build_node_to_ways_index.
  generalize ([] : index_t) H0. induction ways as [|[w refs] ways IH]; [done|].
  intros d Hd. simpl. apply IH. clear IH. revert d Hd.
  induction refs as [|r refs IHr]; [done|]. intros d Hd. simpl. auto.
Qed.

Lemma elem_of_keys_get {K V} `{EqDecision K} (d : list (K * V)) k :
  k ∈ PyDict.keys d ↔ is_Some (PyDict.get k d).
Proof.
  rewrite <- not_eq_None_Some, get_None_keys. split; [tauto|].
  intros H. by apply dec_stable.
Qed.

(** X1: the index built by [build_node_to_ways_index] is a dictionary with
    pairwise distinct keys; its keys are exactly the node ids that occur in
    the node sequence of some way; and no bucket is empty. *)
Theorem index_keys_are_referenced_nodes (ways : ways_t) :
  let node_to_ways := build_node_to_ways_index ways in
  PyDict.wf node_to_ways
  ∧ (∀ n, n ∈ PyDict.keys node_to_ways
          ↔ ∃ w refs, (w, refs) ∈ ways ∧ n ∈ refs)
  ∧ (∀ n b, PyDict.get n node_to_ways = Some b → b ≠ []).
Proof.
  intros node_to_ways. subst node_to_ways.
  assert (Hne : Forall (fun p => p.2 ≠ []) (build_node_to_ways_index ways)).
  { apply (build_invariant (Forall (fun p => p.2 ≠ []))); [constructor|].
    intros k v d. apply dd_append_nonempty. }
  assert (Hget : ∀ n b,
    PyDict.get n (build_node_to_ways_index ways) = Some b → b ≠ []).
  { intros n b Hb%get_Some_elem_of.
    by apply (proj1 (Forall_forall _ _) Hne (n, b)). }
  split_and!; [| |done].
  - apply (build_invariant PyDict.wf); [apply NoDup_nil_2|].
    intros k v d. apply dd_append_wf.
  - intros n. rewrite elem_of_keys_get. split.
    + intros [b Hb]. specialize (Hget n b Hb).
      destruct b as [|w b]; [done|].
      assert (w ∈ bucket n (build_node_to_ways_index ways)) as Hw.
      { unfold PyDict.get_default. rewrite Hb. apply list_elem_of_here. }
      apply elem_of_bucket_build in Hw as (refs & ? & ?). by exists w, refs.
    + intros (w & refs & Hin & Hn).
      assert (w ∈ bucket n (build_node_to_ways_index ways)) as Hw
        by (apply elem_of_bucket_build; by exists refs).
      unfold PyDict.get_default in Hw.
      destruct (PyDict.get n (build_node_to_ways_index ways)); [done|].
      by apply not_elem_of_nil in Hw.
Qed.

(** X2: the index holds exactly one entry per node reference of the
    dataset: the lengths of its buckets add up to the lengths of the node
    sequences of the ways. *)
Theorem index_size_is_reference_count (ways : ways_t) :
  sum_over (fun p => length p.2) (build_node_to_ways_index ways)
  = sum_over (fun p => length p.2) ways.
Proof.
  unfold build_node_to_ways_index.
  assert (∀ d : index_t,
    sum_over (fun p => length p.2)
      (foldl (fun node_to_ways '(way_id, node_refs) =>
                foldl (fun node_to_ways node_ref =>
                         dd_append node_ref way_id node_to_ways)
                      node_to_ways node_refs) d ways)
    = sum_over (fun p => length p.2) d + sum_over (fun p => length p.2) ways)
    as H; [|by rewrite H].
  induction ways as [|[w refs] ways IH]; intros d; simpl; [lia|].
  rewrite IH. clear IH.
  assert (∀ d : index_t,
    sum_over (fun p => length p.2)
      (foldl (fun node_to_ways node_ref => dd_append node_ref w node_to_ways)
             d refs)
    = sum_over (fun p => length p.2) d + length refs) as ->; [|lia].
  clear d. induction refs as [|r refs IHr]; intros d; simpl; [lia|].
  rewrite IHr, dd_append_size. lia.
Qed.

(** ** Connectivity on the built index *)

(** X3: on the index built from a dataset, way [a] is connected to way [b]
    exactly when they are different ways with a common node; hence
    connectivity is symmetric, and every connected way is a way of the
    dataset. *)
Theorem connected_ways_symmetric
    (ways : ways_t) (a b : string) (ra rb : list string) :
  PyDict.wf ways →
  PyDict.get a ways = Some ra →
  PyDict.get b ways = Some rb →
  let node_to_ways := build_node_to_ways_index ways in
  (a ∈ find_connected_ways b ways node_to_ways
   ↔ a ≠ b ∧ ∃ n, n ∈ ra ∧ n ∈ rb)
  ∧ (a ∈ find_connected_ways b ways node_to_ways
     ↔ b ∈ find_connected_ways a ways node_to_ways)
  ∧ (∀ x, x ∈ find_connected_ways a ways node_to_ways → x ∈ PyDict.keys ways).
Proof.
  intros Hwf Ha Hb node_to_ways. subst node_to_ways.
  assert (Hchar : ∀ x y rx ry,
    PyDict.get x ways = Some rx → PyDict.get y ways = Some ry →
    x ∈ find_connected_ways y ways (build_node_to_ways_index ways)
    ↔ x ≠ y ∧ ∃ n, n ∈ rx ∧ n ∈ ry).
  { intros x y rx ry Hx Hy. rewrite elem_of_find_connected.
    unfold PyDict.get_default at 1. rewrite Hy. simpl. split.
    - intros [Hne (n & Hn & (refs & Hin & Hr)%elem_of_bucket_build)].
      split; [done|]. exists n. split; [|done].
      apply (elem_of_get _ _ _ Hwf) in Hin. congruence.
    - intros [Hne (n & Hnx & Hny)]. split; [done|]. exists n. split; [done|].
      apply elem_of_bucket_build. exists rx.
      split; [by apply get_Some_elem_of | done]. }
  split_and!.
  - by apply Hchar.
  - rewrite (Hchar a b ra rb), (Hchar b a rb ra) by done.
    split; intros [Hne (n & ? & ?)]; (split; [done|]); by exists n.
  - intros x [_ (n & _ & (refs & Hin & _)%elem_of_bucket_build)]%elem_of_find_connected.
    apply list_elem_of_fmap. by exists (x, refs).
Qed.

Lemma connected_ways_symmetric_witness :
  PyDict.wf Ex.ways
  ∧ ("W3" ∈ find_connected_ways "W1" Ex.ways (build_node_to_ways_index Ex.ways)
     ↔ "W1" ∈ find_connected_ways "W3" Ex.ways
               (build_node_to_ways_index Ex.ways)).
Proof.
  assert (Hwf : PyDict.wf Ex.ways) by by_compute.
  split; [exact Hwf|].
  exact (proj1 (proj2 (connected_ways_symmetric Ex.ways "W3" "W1"
                         ["B"; "C"] ["A"; "B"] Hwf eq_refl eq_refl))).
Defined.

(** ** Continuations against intersections *)

Lemma qualifies_split way_id way_tags c :
  c ≠ way_id →
  (next_qualifies way_id way_tags c ↔ ¬ inter_qualifies way_id way_tags c).
Proof.
  intros Hc. unfold next_qualifies, inter_qualifies. split.
  - intros [_ [H|[H|H]]] (_ & ? & ? & ?); done.
  - intros Hn. split; [done|].
    destruct (decide (name_of way_id way_tags = "")); [by left|].
    destruct (decide (name_of c way_tags = "")); [by right; left|].
    destruct (decide (name_of way_id way_tags = name_of c way_tags));
      [by right; right | tauto].
Qed.

(** X4: no way is reported both as a continuation and as an intersecting
    street of the same way; and every other way found in the bucket of an
    end node is reported by exactly one of [find_next_street_segments] and
    [find_intersecting_streets]. *)
Theorem continuation_or_intersection
    (way_id : string) (ways : ways_t) (node_to_ways : index_t)
    (way_tags : way_tags_t) :
  let next := Segment.way_id
                <$> find_next_street_segments way_id ways node_to_ways way_tags in
  let inter := Intersection.way_id
                 <$> find_intersecting_streets way_id ways node_to_ways way_tags in
  (∀ c, ¬ (c ∈ next ∧ c ∈ inter))
  ∧ (∀ n c, n ∈ end_nodes (PyDict.get_default way_id ways []) →
            c ∈ bucket n node_to_ways → c ≠ way_id →
            c ∈ next ∨ c ∈ inter).
Proof.
  intros next inter. subst next inter. split.
  - intros c [(e & -> & He)%list_elem_of_fmap (e' & Hc & He')%list_elem_of_fmap].
    apply elem_of_find_next in He as (n & c & _ & _ & Hq & ->).
    apply elem_of_find_inter in He' as (n' & c' & _ & _ & Hq' & ->).
    simpl in Hc. rewrite <- Hc in Hq'.
    exact (proj1 (qualifies_split way_id way_tags c (proj1 Hq)) Hq Hq').
  - intros n c Hn Hc Hne.
    destruct (decide (inter_qualifies way_id way_tags c)) as [Hq|Hq].
    + right. apply list_elem_of_fmap. exists (inter_entry way_tags n c).
      split; [done|]. apply elem_of_find_inter. exists n, c.
      split_and!; [by apply end_nodes_subseteq | done | done | done].
    + left. apply list_elem_of_fmap. exists (next_entry way_id way_tags n c).
      split; [done|]. apply elem_of_find_next. exists n, c.
      split_and!; [done | done | by apply qualifies_split | done].
Qed.

Lemma continuation_or_intersection_witness :
  "W3" ∈ Segment.way_id
           <$> find_next_street_segments "W1" Ex.ways Ex.node_to_ways
                 Ex.way_tags
  ∨ "W3" ∈ Intersection.way_id
             <$> find_intersecting_streets "W1" Ex.ways Ex.node_to_ways
                   Ex.way_tags.
Proof.
  apply (proj2 (continuation_or_intersection "W1" Ex.ways Ex.node_to_ways
                  Ex.way_tags) "B" "W3"); by_compute.
Defined.

(** X5: in an entry of [find_next_street_segments], [is_same_name] is true
    exactly when the recorded name equals the name of the queried way, which
    includes two ways that both have no name; when it is false, exactly one
    of the two names is empty. *)
Theorem same_name_flag
    (way_id : string) (ways : ways_t) (node_to_ways : index_t)
    (way_tags : way_tags_t) (e : Segment.t) :
  e ∈ find_next_street_segments way_id ways node_to_ways way_tags →
  Segment.name e = name_of (Segment.way_id e) way_tags
  ∧ (Segment.is_same_name e = true
     ↔ Segment.name e = name_of way_id way_tags)
  ∧ (Segment.is_same_name e = false →
     (name_of way_id way_tags = "" ∧ Segment.name e ≠ "")
     ∨ (name_of way_id way_tags ≠ "" ∧ Segment.name e = "")).
Proof.
  intros (n & c & _ & _ & [_ Hq] & ->)%elem_of_find_next. simpl.
  split_and!; [done | |].
  - rewrite bool_decide_eq_true. split; congruence.
  - rewrite bool_decide_eq_false. intros Hne.
    destruct Hq as [H|[H|H]]; [left | right | done].
    + split; [done|]. congruence.
    + split; [|done]. congruence.
Qed.

Lemma same_name_flag_witness :
  Segment.mk "D" "" "A" false
    ∈ find_next_street_segments "W" Loop.ways Loop.node_to_ways Loop.way_tags
  ∧ Segment.name (Segment.mk "D" "" "A" false) = name_of "D" Loop.way_tags.
Proof.
  assert (Hin : Segment.mk "D" "" "A" false
                  ∈ find_next_street_segments "W" Loop.ways Loop.node_to_ways
                      Loop.way_tags) by by_compute.
  split; [exact Hin|].
  exact (proj1 (same_name_flag "W" Loop.ways Loop.node_to_ways Loop.way_tags
                  _ Hin)).
Defined.

(** ** Ways that the dataset does not have *)

(** X6: for a way id that is no key of [ways], or whose node sequence is
    empty, the four queries return empty results: no connected way, no
    continuation, no intersection and an empty coordinate trace. *)
Theorem unknown_way_has_empty_results {float : Type}
    (way_id : string) (ways : ways_t) (node_to_ways : index_t)
    (way_tags : way_tags_t) (nodes : list (string * (float * float))) :
  way_id ∉ PyDict.keys ways ∨ PyDict.get way_id ways = Some [] →
  find_connected_ways way_id ways node_to_ways = ∅
  ∧ find_next_street_segments way_id ways node_to_ways way_tags = []
  ∧ find_intersecting_streets way_id ways node_to_ways way_tags = []
  ∧ get_way_nodes_with_coords way_id ways nodes = [].
Proof.
  intros H.
  assert (Hnodes : PyDict.get_default way_id ways [] = []).
  { unfold PyDict.get_default.
    destruct H as [->%get_None_keys| ->]; done. }
  unfold find_connected_ways, find_next_street_segments,
    find_intersecting_streets, get_way_nodes_with_coords.
  by rewrite Hnodes.
Qed.

Lemma unknown_way_has_empty_results_witness :
  ("W9" ∉ PyDict.keys Ex.ways)
  ∧ (find_next_street_segments "W9" Ex.ways Ex.node_to_ways Ex.way_tags = []).
Proof.
  assert (H : "W9" ∉ PyDict.keys Ex.ways) by by_compute.
  split; [exact H|].
  exact (proj1 (proj2 (unknown_way_has_empty_results "W9" Ex.ways
                         Ex.node_to_ways Ex.way_tags Ex.nodes (or_introl H)))).
Defined.

(** ** Name lookup *)

(** X7: [find_ways_by_name] lists every matching way once, only ways of the
    tag table, in the order of the table; and two queries with the same
    lower-casing give the same result. *)
Theorem find_ways_by_name_no_duplicates
    (lower : string → string) (q q' : string) (way_tags : way_tags_t) :
  PyDict.wf way_tags →
  NoDup (find_ways_by_name lower q way_tags)
  ∧ find_ways_by_name lower q way_tags `sublist_of` PyDict.keys way_tags
  ∧ (lower q = lower q' →
     find_ways_by_name lower q way_tags = find_ways_by_name lower q' way_tags).
Proof.
  intros Hwf. rewrite !find_ways_by_name_closed.
  assert (Hsub : (filter
            (fun p => lower (PyDict.get_default "name" p.2 "") = lower q)
            way_tags).*1 `sublist_of` PyDict.keys way_tags).
  { unfold PyDict.keys. apply fmap_sublist, sublist_filter. }
  split_and!; [|done|].
  - by apply (sublist_NoDup _ (PyDict.keys way_tags)).
  - by intros ->.
Qed.

Lemma find_ways_by_name_no_duplicates_witness :
  PyDict.wf Ex.way_tags
  ∧ find_ways_by_name ascii_lower "MAIN" Ex.way_tags
    = find_ways_by_name ascii_lower "main" Ex.way_tags.
Proof.
  assert (Hwf : PyDict.wf Ex.way_tags) by by_compute.
  split; [exact Hwf|].
  exact (proj2 (proj2 (find_ways_by_name_no_duplicates ascii_lower
                         "MAIN" "main" Ex.way_tags Hwf)) eq_refl).
Defined.

(** ** Coordinate trace *)

(** X8: the coordinate trace of a way is never longer than its node
    sequence, and it lists all the node references, in order, exactly when
    the node table has every one of them. *)
Theorem trace_complete_iff_all_resolved {float : Type}
    (way_id : string) (ways : ways_t)
    (nodes : list (string * (float * float))) :
  let way_nodes := PyDict.get_default way_id ways [] in
  let trace := get_way_nodes_with_coords way_id ways nodes in
  (length trace ≤ length way_nodes)%nat
  ∧ (Coord.node_id <$> trace = way_nodes
     ↔ ∀ r, r ∈ way_nodes → r ∈ PyDict.keys nodes)
  ∧ (length trace = length way_nodes
     ↔ ∀ r, r ∈ way_nodes → r ∈ PyDict.keys nodes).
Proof.
  intros way_nodes trace.
  assert (Hids : Coord.node_id <$> trace
                 = filter (fun r => is_Some (PyDict.get r nodes)) way_nodes)
    by apply trace_node_ids.
  assert (Hlen : length trace
                 = length (filter (fun r => is_Some (PyDict.get r nodes))
                             way_nodes))
    by (by rewrite <- Hids, length_fmap).
  assert (Hall : (∀ r, r ∈ way_nodes → r ∈ PyDict.keys nodes)
                 ↔ Forall (fun r => is_Some (PyDict.get r nodes)) way_nodes).
  { rewrite Forall_forall. by setoid_rewrite elem_of_keys_get. }
  assert (Hfilter : ∀ l : list string,
    length (filter (fun r => is_Some (PyDict.get r nodes)) l) = length l
    → Forall (fun r => is_Some (PyDict.get r nodes)) l).
  { induction l as [|r l IH]; [constructor|].
    rewrite filter_cons. case_decide as Hr; simpl.
    - intros [= Hl]. constructor; auto.
    - intros Hl.
      pose proof (length_filter (fun r => is_Some (PyDict.get r nodes)) l).
      lia. }
  split_and!.
  - rewrite Hlen. apply length_filter.
  - rewrite Hids, Hall. split.
    + intros Heq. apply Hfilter. by rewrite Heq.
    + intros HF. clear -HF. induction HF as [|r l Hr HF IH]; [done|].
      rewrite filter_cons, decide_True by done. by f_equal.
  - rewrite Hlen, Hall. split; [apply Hfilter|].
    intros HF. clear -HF. induction HF as [|r l Hr HF IH]; [done|].
    rewrite filter_cons, decide_True by done. simpl. by f_equal.
Qed.

Lemma trace_complete_iff_all_resolved_witness :
  (length (get_way_nodes_with_coords "W1" Dangling.ways Dangling.nodes)
   ≤ length (PyDict.get_default "W1" Dangling.ways []))%nat
  ∧ length (get_way_nodes_with_coords "W2" Dangling.ways Dangling.nodes)
    = length (PyDict.get_default "W2" Dangling.ways []).
Proof.
  split.
  - exact (proj1 (trace_complete_iff_all_resolved "W1" Dangling.ways
                    Dangling.nodes)).
  - apply (proj2 (proj2 (trace_complete_iff_all_resolved "W2" Dangling.ways
                           Dangling.nodes))).
    intros r Hr. apply list_elem_of_In in Hr. simpl in Hr.
    destruct Hr as [<-|[<-|[]]]; by_compute.
Defined.

(** * [parse_osm_file] *)

(** ** Assignments to a dictionary *)

Section dict_set_facts.
Context {K V : Type} `{EqDecision K}.
Implicit Types (d : list (K * V)) (k : K) (v : V).

Lemma get_set d k k' v :
  PyDict.get k (PyDict.set k' v d)
  = if decide (k' = k) then Some v else PyDict.get k d.
Proof.
  induction d as [|[k0 v0] d IH]; simpl.
  - done.
  - destruct (decide (k0 = k')) as [->|Hne]; simpl.
    + by destruct (decide (k' = k)).
    + rewrite IH. destruct (decide (k0 = k)) as [->|?]; [|done].
      by rewrite decide_False by done.
Qed.
End dict_set_facts.

Section loops_of_assignments.
Context {A V : Type}.
Context (key : A → string) (val : A → V).
Context (step : list (string * V) → A → list (string * V)).
Hypothesis step_set : ∀ d x, step d x = PyDict.set (key x) (val x) d.

(** After a loop of assignments, a key holds the value assigned last. *)
Lemma get_foldl_set (l : list A) (d : list (string * V)) (k : string) :
  PyDict.get k (foldl step d l)
  = match last_with key k l with
    | Some x => Some (val x)
    | None => PyDict.get k d
    end.
Proof.
  revert d. induction l as [|x l IH]; intros d; simpl; [done|].
  rewrite IH, step_set, get_set.
  destruct (last_with key k l); [done|]. by case_decide.
Qed.

Lemma wf_foldl_set (l : list A) (d : list (string * V)) :
  PyDict.wf d → PyDict.wf (foldl step d l).
Proof.
  revert d. induction l as [|x l IH]; intros d Hd; simpl; [done|].
  apply IH. rewrite step_set. by apply set_wf.
Qed.

(** The keys after a loop of assignments: the old keys, then the new ones
    in the order of their first assignments. *)
Lemma keys_foldl_set (l : list A) (d : list (string * V)) :
  PyDict.keys (foldl step d l)
  = PyDict.keys d
    ++ filter (fun k => k ∉ PyDict.keys d) (first_occurrences (key <$> l)).
Proof.
  revert d. induction l as [|x l IH]; intros d; simpl.
  - by rewrite app_nil_r.
  - rewrite IH, step_set, keys_set, filter_cons.
    destruct (decide (key x ∈ PyDict.keys d)) as [Hin|Hnin].
    + rewrite decide_False by (intros Hn; exact (Hn Hin)). f_equal.
      rewrite list_filter_filter. apply list_filter_iff.
      intros k. split; [|by intros [? _]]. intros Hk. split; [done|].
      by intros ->.
    + rewrite decide_True by done. rewrite <- app_assoc. simpl. do 2 f_equal.
      rewrite list_filter_filter. apply list_filter_iff.
      intros k. rewrite not_elem_of_app, list_elem_of_singleton. tauto.
Qed.
End loops_of_assignments.

Lemma foldl_pair {A B C} (f : A → C → A) (g : B → C → B) (l : list C) a b :
  foldl (fun '(a, b) x => (f a x, g b x)) (a, b) l = (foldl f a l, foldl g b l).
Proof. revert a b. induction l as [|x l IH]; intros a b; simpl; [done|]. apply IH. Qed.

Lemma foldl_snoc_id {A} (l acc : list A) :
  foldl (fun acc x => acc ++ [x]) acc l = acc ++ l.
Proof.
  revert acc. induction l as [|x l IH]; intros acc; simpl.
  - by rewrite app_nil_r.
  - by rewrite IH, <- app_assoc.
Qed.

Lemma filter_all {A} (P : A → Prop) `{∀ x, Decision (P x)} (l : list A) :
  (∀ x, x ∈ l → P x) → filter P l = l.
Proof.
  induction l as [|x l IH]; intros HP; [done|].
  rewrite filter_cons, decide_True by (apply HP, list_elem_of_here).
  f_equal. apply IH. intros y Hy. by apply HP, list_elem_of_further.
Qed.

Lemma first_occurrences_spec (l : list string) :
  NoDup (first_occurrences l) ∧ ∀ k, k ∈ first_occurrences l ↔ k ∈ l.
Proof.
  induction l as [|x l [IHnd IHin]]; simpl.
  - split; [apply NoDup_nil_2 | done].
  - split.
    + apply NoDup_cons. split; [|by apply NoDup_filter].
      by intros [? _]%list_elem_of_filter.
    + intros k. rewrite !elem_of_cons, list_elem_of_filter, IHin.
      destruct (decide (k = x)); tauto.
Qed.

(** ** Printing computations *)

Section out_facts.
Context {L A B : Type}.

Lemma out_bind_Some (o : list L) (x : A) (f : A → out L B) :
  ((o, Some x) : out L A) ≫= f = (o ++ (f x).1, (f x).2).
Proof. done. Qed.


End out_facts.

(** ** The two loops of the parser *)

Section parser_facts.
Context {float : Type} (parse_float : string → option float).

Lemma node_coords_None (node : NodeElem.t) :
  node_coords parse_float node = None
  ↔ parse_float (NodeElem.lat node) = None
    ∨ parse_float (NodeElem.lon node) = None.
Proof.
  unfold node_coords.
  destruct (parse_float (NodeElem.lat node)); simpl; [|intuition congruence].
  destruct (parse_float (NodeElem.lon node)); simpl; intuition congruence.
Qed.

(** The body of the loop over the [node] elements. *)
Lemma node_body (d : list (string * (float * float))) (node : NodeElem.t) :
  (let node_id := NodeElem.id node in
   lat ← float_of parse_float (NodeElem.lat node);
   lon ← float_of parse_float (NodeElem.lon node);
   mret (PyDict.set node_id (lat, lon) d))
  = ([] : list (line float),
     (fun c => PyDict.set (NodeElem.id node) c d)
     <$> node_coords parse_float node).
Proof.
  unfold float_of, node_coords.
  destruct (parse_float (NodeElem.lat node)) as [lat|]; [|done].
  destruct (parse_float (NodeElem.lon node)) as [lon|]; done.
Qed.

(** The loop over the [node] elements prints nothing; it raises when some
    coordinate is no number, and otherwise it returns a dictionary in which
    every id has the coordinates of its last element. *)
Lemma nodes_loop (l : list NodeElem.t) (d : list (string * (float * float))) :
  let r := for_fold (fun nodes node =>
                       let node_id := NodeElem.id node in
                       lat ← float_of parse_float (NodeElem.lat node);
                       lon ← float_of parse_float (NodeElem.lon node);
                       mret (PyDict.set node_id (lat, lon) nodes)) d l in
  r.1 = []
  ∧ match r.2 with
    | Some d' =>
        (∀ node, node ∈ l → is_Some (node_coords parse_float node))
        ∧ (PyDict.wf d → PyDict.wf d')
        ∧ ∀ k, PyDict.get k d'
               = match last_with NodeElem.id k l with
                 | Some node => node_coords parse_float node
                 | None => PyDict.get k d
                 end
    | None => ∃ node, node ∈ l ∧ node_coords parse_float node = None
    end.
Proof.
  revert d. induction l as [|node l IH]; intros d.
  - split; [done|]. simpl.
    split_and!; [|done|done].
    intros n Hn. by apply not_elem_of_nil in Hn.
  - cbn [for_fold]. cbv zeta. rewrite node_body.
    destruct (node_coords parse_float node) as [c|] eqn:Hc.
    2:{ split; [done|]. exists node. split; [apply list_elem_of_here | done]. }
    specialize (IH (PyDict.set (NodeElem.id node) c d)).
    cbv zeta in IH. destruct IH as [Hout IH].
    cbn [fmap option_fmap option_map]. rewrite out_bind_Some.
    destruct (for_fold _ _ l) as [o [d'|]]; cbn [fst snd app] in *; subst o.
    + split; [done|]. destruct IH as (Hall & Hwf & Hget). split_and!.
      * intros n [->|?]%elem_of_cons; [by rewrite Hc | by auto].
      * intros Hd. by apply Hwf, set_wf.
      * intros k. rewrite Hget, get_set. cbn [last_with].
        destruct (last_with NodeElem.id k l); [done|]. by case_decide.
    + split; [done|]. destruct IH as (n & ? & ?). exists n.
      split; [by apply list_elem_of_further | done].
Qed.

(** The result of [parse_osm_file]: the parsing line, and the three
    dictionaries unless the loop over the nodes raises. *)
Lemma parse_osm_file_closed (file_path : string) (root : Root.t) :
  parse_osm_file parse_float file_path root
  = ([ParsingFile file_path],
     (fun nodes =>
        (nodes,
         foldl (fun ways way => PyDict.set (WayElem.id way) (WayElem.nd way) ways)
               [] (Root.ways root),
         foldl (fun way_tags way =>
                  PyDict.set (WayElem.id way)
                    (foldl (fun tags '(k, v) => PyDict.set k v tags)
                           [] (WayElem.tag way)) way_tags)
               [] (Root.ways root)))
     <$> (for_fold (fun nodes node =>
                      let node_id := NodeElem.id node in
                      lat ← float_of parse_float (NodeElem.lat node);
                      lon ← float_of parse_float (NodeElem.lon node);
                      mret (PyDict.set node_id (lat, lon) nodes))
                   [] (Root.nodes root)).2).
Proof.
  unfold parse_osm_file.
  pose proof (nodes_loop (Root.nodes root) []) as [Hout _]. simpl in Hout.
  unfold mbind at 1, out_bind at 1. simpl.
  unfold mbind at 1, out_bind at 1.
  destruct (for_fold _ _ (Root.nodes root)) as [o [nodes|]];
    simpl in *; subst o; [|done].
  rewrite (foldl_pair
    (fun ways way =>
       PyDict.set (WayElem.id way)
         (foldl (fun nd_refs ref => nd_refs ++ [ref]) [] (WayElem.nd way)) ways)
    (fun way_tags way =>
       PyDict.set (WayElem.id way)
         (foldl (fun tags '(k, v) => PyDict.set k v tags) [] (WayElem.tag way))
         way_tags)).
  simpl. do 3 f_equal.
  generalize ([] : ways_t).
  induction (Root.ways root) as [|w ws IH]; intros d; simpl; [done|].
  by rewrite IH, foldl_snoc_id.
Qed.
End parser_facts.

(** ** What the parser returns *)

(** X9: [parse_osm_file] prints the parsing line and nothing else; it
    raises exactly when the [lat] or the [lon] attribute of some [node]
    element is no number, whatever the [way] elements are. *)
Theorem parse_raises_iff_bad_coordinate {float : Type}
    (parse_float : string → option float)
    (file_path : string) (root : Root.t) :
  (parse_osm_file parse_float file_path root).1 = [ParsingFile file_path]
  ∧ ((parse_osm_file parse_float file_path root).2 = None
     ↔ ∃ node, node ∈ Root.nodes root
               ∧ (parse_float (NodeElem.lat node) = None
                  ∨ parse_float (NodeElem.lon node) = None)).
Proof.
  rewrite parse_osm_file_closed. split; [done|]. cbn [snd].
  pose proof (nodes_loop parse_float (Root.nodes root) []) as [_ H].
  cbv zeta in H. destruct (for_fold _ _ _).2 as [nodes|]; cbn.
  - destruct H as (Hall & _). split; [done|].
    intros (node & Hin & Hbad%node_coords_None).
    destruct (Hall node Hin) as [c Hc]. congruence.
  - split; [|done]. intros _. destruct H as (node & Hin & Hbad).
    exists node. split; [done|]. by apply node_coords_None.
Qed.

(** X10: the three dictionaries that [parse_osm_file] returns have
    pairwise distinct keys, and so has the tag dictionary of every way;
    [ways] and [way_tags] have the same keys in the same order, which is the
    order in which the way ids first occur in the document. *)
Theorem parsed_dataset_well_formed {float : Type}
    (parse_float : string → option float)
    (file_path : string) (root : Root.t) nodes ways way_tags :
  (parse_osm_file parse_float file_path root).2 = Some (nodes, ways, way_tags) →
  PyDict.wf nodes ∧ PyDict.wf ways ∧ PyDict.wf way_tags
  ∧ (∀ way_id tags, PyDict.get way_id way_tags = Some tags → PyDict.wf tags)
  ∧ PyDict.keys ways = first_occurrences (WayElem.id <$> Root.ways root)
  ∧ PyDict.keys way_tags = PyDict.keys ways.
Proof.
  rewrite parse_osm_file_closed. cbn [snd].
  pose proof (nodes_loop parse_float (Root.nodes root) []) as [_ H].
  cbv zeta in H. destruct (for_fold _ _ _).2 as [nodes'|]; [|done].
  intros [= <- <- <-]. destruct H as (_ & Hwf & _).
  assert (Hk : ∀ V (val : WayElem.t → V),
    PyDict.keys (foldl (fun d w => PyDict.set (WayElem.id w) (val w) d)
                       [] (Root.ways root))
    = first_occurrences (WayElem.id <$> Root.ways root)).
  { intros V val.
    rewrite (keys_foldl_set WayElem.id val) by done. simpl.
    apply filter_all. intros k _. apply not_elem_of_nil. }
  split_and!.
  - apply Hwf, NoDup_nil_2.
  - apply (wf_foldl_set WayElem.id WayElem.nd); [done | apply NoDup_nil_2].
  - apply (wf_foldl_set WayElem.id
             (fun w => foldl (fun tags '(k, v) => PyDict.set k v tags)
                             [] (WayElem.tag w))); [done | apply NoDup_nil_2].
  - intros way_id tags.
    rewrite (get_foldl_set WayElem.id
               (fun w => foldl (fun tags '(k, v) => PyDict.set k v tags)
                               [] (WayElem.tag w))) by done.
    destruct (last_with WayElem.id way_id (Root.ways root)) as [w|]; [|done].
    intros [= <-].
    apply (wf_foldl_set fst snd); [by intros d [k v] | apply NoDup_nil_2].
  - apply Hk.
  - by rewrite !Hk.
Qed.

Lemma parsed_dataset_well_formed_witness :
  PyDict.wf [("W1", ["A"; "B"]); ("W3", ["B"; "C"]); ("W2", ["B"; "C"])]
  ∧ PyDict.keys [("W1", ["A"; "B"]); ("W3", ["B"; "C"]); ("W2", ["B"; "C"])]
    = first_occurrences (WayElem.id <$> Root.ways ExDoc.root).
Proof.
  pose proof (parsed_dataset_well_formed decimal "f.osm" ExDoc.root
                _ _ _ eq_refl) as (_ & Hwf & _ & _ & Hkeys & _).
  split; [exact Hwf | exact Hkeys].
Defined.

(** X11: when an id occurs on several elements, the last one wins: after
    [parse_osm_file], a node id has the coordinates of its last [node]
    element, a way id has the node references of its last [way] element,
    and a tag key of a way has the value of the last [tag] child with that
    key of that last [way] element.  An id or a key that does not occur is
    absent. *)
Theorem parsed_lookups_last_wins {float : Type}
    (parse_float : string → option float)
    (file_path : string) (root : Root.t) nodes ways way_tags :
  (parse_osm_file parse_float file_path root).2 = Some (nodes, ways, way_tags) →
  (∀ node_id,
     PyDict.get node_id nodes
     = last_with NodeElem.id node_id (Root.nodes root)
       ≫= node_coords parse_float)
  ∧ (∀ way_id,
       PyDict.get way_id ways
       = WayElem.nd <$> last_with WayElem.id way_id (Root.ways root))
  ∧ (∀ way_id k,
       PyDict.get way_id way_tags ≫= PyDict.get k
       = last_with WayElem.id way_id (Root.ways root)
         ≫= fun way => snd <$> last_with fst k (WayElem.tag way)).
Proof.
  rewrite parse_osm_file_closed. cbn [snd].
  pose proof (nodes_loop parse_float (Root.nodes root) []) as [_ H].
  cbv zeta in H. destruct (for_fold _ _ _).2 as [nodes'|]; [|done].
  intros [= <- <- <-]. destruct H as (_ & _ & Hget). split_and!.
  - intros node_id. rewrite Hget.
    by destruct (last_with NodeElem.id node_id (Root.nodes root)).
  - intros way_id. rewrite (get_foldl_set WayElem.id WayElem.nd) by done.
    by destruct (last_with WayElem.id way_id (Root.ways root)).
  - intros way_id k.
    rewrite (get_foldl_set WayElem.id
               (fun w => foldl (fun tags '(k, v) => PyDict.set k v tags)
                               [] (WayElem.tag w))) by done.
    destruct (last_with WayElem.id way_id (Root.ways root)) as [w|]; [|done].
    simpl. rewrite (get_foldl_set fst snd) by (by intros d [? ?]).
    by destruct (last_with fst k (WayElem.tag w)).
Qed.

Lemma parsed_lookups_last_wins_witness :
  PyDict.get "W3" [("W1", ["A"; "B"]); ("W3", ["B"; "C"]); ("W2", ["B"; "C"])]
  = WayElem.nd <$> last_with WayElem.id "W3" (Root.ways ExDoc.root).
Proof.
  exact (proj1 (proj2 (parsed_lookups_last_wins decimal "f.osm" ExDoc.root
                         _ _ _ eq_refl)) "W3").
Defined.

(** * [analyze_street_by_name] *)

Section loops_that_print.
Context {L A : Type}.




Lemma imap_map {B C} (g : nat → A → C) (h : C → B) (l : list A) :
  h <$> imap g l = imap (fun i x => h (g i x)) l.
Proof.
  revert g. induction l as [|x l IH]; intros g; [done|].
  cbn [imap]. rewrite fmap_cons. f_equal. apply (IH (g ∘ S)).
Qed.


Lemma fmap_enumerate {B} (f : nat → A → B) (l : list A) :
  (fun '(i, x) => f i x) <$> enumerate l = imap f l.
Proof. unfold enumerate. by rewrite imap_map. Qed.

End loops_that_print.

Section report_facts.
Context {float : Type} (parse_float : string → option float).
Context (lower : string → string).


End report_facts.





(** * [fix_private_roads.py] *)

(** ** Strings *)

Lemma append_nil_l (s : string) : "" +:+ s = s.
Proof. done. Qed.

Lemma append_cons (c : ascii) (s t : string) :
  String c s +:+ t = String c (s +:+ t).
Proof. done. Qed.

Lemma append_nil_r (s : string) : s +:+ "" = s.
Proof.
  induction s as [|c s IH]; [done|]. by rewrite append_cons, IH.
Qed.

Lemma append_assoc (s t u : string) : (s +:+ t) +:+ u = s +:+ (t +:+ u).
Proof.
  induction s as [|c s IH]; [done|]. by rewrite !append_cons, IH.
Qed.

Lemma list_ascii_of_append (s t : string) :
  String.list_ascii_of_string (s +:+ t)
  = String.list_ascii_of_string s ++ String.list_ascii_of_string t.
Proof.
  induction s as [|c s IH]; [done|].
  rewrite append_cons. simpl. by rewrite IH.
Qed.

Lemma replace_append (old : ascii) (new s t : string) :
  replace old new (s +:+ t) = replace old new s +:+ replace old new t.
Proof.
  induction s as [|c s IH]; [done|].
  rewrite append_cons. cbn [replace]. rewrite IH.
  case_decide; [by rewrite append_assoc | by rewrite append_cons].
Qed.

(** ** Escaping *)

(** The chains of replacements escape a text character by character. *)
Lemma escape_attr_cons (c : ascii) (s : string) :
  _escape_attr (String c s) = escape_char true c +:+ _escape_attr s.
Proof.
  unfold _escape_attr, escape_char. cbn [replace].
  destruct (decide (c = "&"%char)) as [->|Hamp].
  { by rewrite ?replace_append. }
  cbn [replace]. destruct (decide (c = "<"%char)) as [->|Hlt].
  { by rewrite ?replace_append. }
  cbn [replace]. destruct (decide (c = ">"%char)) as [->|Hgt].
  { by rewrite ?replace_append. }
  cbn [replace]. destruct (decide (c = ascii_of_nat 34)) as [->|Hq].
  - by rewrite bool_decide_eq_true_2.
  - by rewrite bool_decide_eq_false_2.
Qed.

Lemma escape_text_cons (c : ascii) (s : string) :
  _escape_text (String c s) = escape_char false c +:+ _escape_text s.
Proof.
  unfold _escape_text, escape_char. cbn [replace].
  destruct (decide (c = "&"%char)) as [->|Hamp].
  { by rewrite ?replace_append. }
  cbn [replace]. destruct (decide (c = "<"%char)) as [->|Hlt].
  { by rewrite ?replace_append. }
  cbn [replace]. destruct (decide (c = ">"%char)) as [->|Hgt]; [|done].
  by rewrite ?replace_append.
Qed.

Lemma unescape_other (c : ascii) (s : string) :
  c ≠ "&"%char → unescape (String c s) = String c (unescape s).
Proof.
  intros Hc. destruct c as [[] [] [] [] [] [] [] []]; try done.
Qed.

Lemma unescape_escape_char (quot : bool) (c : ascii) (s : string) :
  unescape (escape_char quot c +:+ s) = String c (unescape s).
Proof.
  unfold escape_char.
  destruct (decide (c = "&"%char)) as [->|Hamp]; [done|].
  destruct (decide (c = "<"%char)) as [->|Hlt]; [done|].
  destruct (decide (c = ">"%char)) as [->|Hgt]; [done|].
  destruct (quot && bool_decide (c = ascii_of_nat 34)) eqn:Hq.
  - apply andb_true_iff in Hq as [_ ->%bool_decide_eq_true]. done.
  - rewrite append_cons, append_nil_l. by apply unescape_other.
Qed.

(** X14: escaping is lossless: turning the four entities back into their
    characters recovers the text from [_escape_attr] and from
    [_escape_text], so two different texts are never written alike. *)
Theorem escape_is_lossless (s t : string) :
  unescape (_escape_attr s) = s
  ∧ unescape (_escape_text s) = s
  ∧ (_escape_attr s = _escape_attr t → s = t)
  ∧ (_escape_text s = _escape_text t → s = t).
Proof.
  assert (Hattr : ∀ u, unescape (_escape_attr u) = u).
  { induction u as [|c u IH]; [done|].
    by rewrite escape_attr_cons, unescape_escape_char, IH. }
  assert (Htext : ∀ u, unescape (_escape_text u) = u).
  { induction u as [|c u IH]; [done|].
    by rewrite escape_text_cons, unescape_escape_char, IH. }
  split_and!; [done | done | |].
  - intros Heq. by rewrite <- (Hattr s), <- (Hattr t), Heq.
  - intros Heq. by rewrite <- (Htext s), <- (Htext t), Heq.
Qed.

Lemma escape_is_lossless_witness :
  unescape (_escape_attr "A<B & C") = "A<B & C".
Proof. exact (proj1 (escape_is_lossless "A<B & C" "")). Defined.

(** X15: an escaped attribute value contains no [<], no [>] and no double
    quote, and an escaped text contains no [<] and no [>]; the double quote
    of a text is kept. *)
Theorem escaped_text_has_no_markup (s : string) (c : ascii) :
  (c ∈ String.list_ascii_of_string (_escape_attr s) →
   c ≠ "<"%char ∧ c ≠ ">"%char ∧ c ≠ ascii_of_nat 34)
  ∧ (c ∈ String.list_ascii_of_string (_escape_text s) →
     c ≠ "<"%char ∧ c ≠ ">"%char)
  ∧ (ascii_of_nat 34 ∈ String.list_ascii_of_string s →
     ascii_of_nat 34 ∈ String.list_ascii_of_string (_escape_text s)).
Proof.
  assert (Hchar : ∀ quot a,
    c ∈ String.list_ascii_of_string (escape_char quot a) →
    c ≠ "<"%char ∧ c ≠ ">"%char ∧ (quot = true → c ≠ ascii_of_nat 34)).
  { intros quot a. unfold escape_char.
    destruct (decide (a = "&"%char)) as [->|Hamp].
    { intros Hin. apply list_elem_of_In in Hin. simpl in Hin.
      split_and!; [| |intros _]; intros ->; intuition discriminate. }
    destruct (decide (a = "<"%char)) as [->|Hlt].
    { intros Hin. apply list_elem_of_In in Hin. simpl in Hin.
      split_and!; [| |intros _]; intros ->; intuition discriminate. }
    destruct (decide (a = ">"%char)) as [->|Hgt].
    { intros Hin. apply list_elem_of_In in Hin. simpl in Hin.
      split_and!; [| |intros _]; intros ->; intuition discriminate. }
    destruct (quot && bool_decide (a = ascii_of_nat 34)) eqn:Hq.
    { intros Hin. apply list_elem_of_In in Hin. simpl in Hin.
      split_and!; [| |intros _]; intros ->; intuition discriminate. }
    intros Hin. apply list_elem_of_In in Hin. simpl in Hin.
    destruct Hin as [<-|[]]. split_and!; [done | done |].
    intros ->. simpl in Hq. by rewrite bool_decide_eq_false in Hq. }
  split_and!.
  - induction s as [|a s IH]; [by intros ?%not_elem_of_nil|].
    rewrite escape_attr_cons, list_ascii_of_append, elem_of_app.
    intros [Hin|Hin]; [|by auto].
    destruct (Hchar true a Hin) as (? & ? & ?). auto.
  - induction s as [|a s IH]; [by intros ?%not_elem_of_nil|].
    rewrite escape_text_cons, list_ascii_of_append, elem_of_app.
    intros [Hin|Hin]; [|by auto].
    destruct (Hchar false a Hin) as (? & ? & ?). auto.
  - induction s as [|a s IH]; [done|].
    rewrite escape_text_cons, list_ascii_of_append, elem_of_app.
    simpl. intros [<-|Hin]%elem_of_cons; [left | right; auto].
    apply list_elem_of_here.
Qed.

Lemma escaped_text_has_no_markup_witness :
  "<"%char ∉ String.list_ascii_of_string (_escape_attr "A<B & C").
Proof.
  intros Hin.
  by destruct (proj1 (escaped_text_has_no_markup "A<B & C" "<"%char) Hin).
Defined.

(** ** The handler *)

Section handler_facts.
Context (strip : string → string).
Import OSMHandler.

Lemma write_nil (h : t) : write h "" = h.
Proof. destruct h. unfold write. simpl. by rewrite append_nil_r. Qed.

Lemma write_write (h : t) (a b : string) :
  write (write h a) b = write h (a +:+ b).
Proof. unfold write. simpl. by rewrite append_assoc. Qed.

Lemma concat_str_cons (s : string) (l : list string) :
  concat_str (s :: l) = s +:+ concat_str l.
Proof. done. Qed.

Lemma write_attrs_eq (h : t) (attrs : list (string * string)) :
  write_attrs h attrs = write h (render_attrs attrs).
Proof.
  unfold write_attrs, render_attrs. revert h.
  induction attrs as [|[n v] attrs IH]; intros h.
  - simpl. by rewrite write_nil.
  - cbn [foldl]. rewrite IH, write_write. by rewrite fmap_cons, concat_str_cons.
Qed.

(** The text of an element, as the loop hands it to [handle_text]. *)
Lemma text_step (h : t) (text : option string) :
  match text with
  | Some text =>
      if truthy text && truthy (strip text)
      then handle_text strip h text else h
  | None => h
  end = write h (render_text strip (depth h) text).
Proof.
  unfold handle_text, render_text. destruct text as [text|].
  - destruct (truthy text && truthy (strip text)); [done|].
    by rewrite write_nil.
  - by rewrite write_nil.
Qed.

Lemma process_events_app (h : t) (n : nat) (evs1 evs2 : list event) :
  process_events strip h n (evs1 ++ evs2)
  = process_events strip (process_events strip h n evs1).1
      (process_events strip h n evs1).2 evs2.
Proof.
  unfold process_events. rewrite foldl_app.
  by destruct (foldl _ (h, n) evs1).
Qed.

Lemma process_start (h : t) (n : nat) tag attrib text (evs : list event) :
  process_events strip h n (StartEvent tag attrib text :: evs)
  = process_events strip
      (write (start_element h tag attrib)
         (render_text strip (depth (start_element h tag attrib)) text))
      (n + 1) evs.
Proof. unfold process_events. cbn [foldl]. by rewrite text_step. Qed.

Lemma process_end (h : t) (n : nat) tag (evs : list event) :
  process_events strip h n (EndEvent tag :: evs)
  = process_events strip (end_element h tag) n evs.
Proof. done. Qed.

(** A start always enters one level, an end always leaves one. *)
Lemma depth_start_element (h : t) name attrs :
  depth (start_element h name attrs) = (depth h + 1)%Z.
Proof.
  unfold start_element. cbv zeta.
  repeat match goal with
         | |- depth (if ?c then _ else _) = _ => destruct c
         end; by rewrite ?write_attrs_eq.
Qed.

Lemma depth_end_element (h : t) name :
  depth (end_element h name) = (depth h - 1)%Z.
Proof.
  unfold end_element, set_depth. cbv zeta. cbn [depth].
  repeat match goal with
         | |- context [depth (if ?c then _ else _)] => destruct c
         end; done.
Qed.
End handler_facts.

Section handler_elements.
Context (strip : string → string).
Import OSMHandler.

(** A [tag] child of a way. *)
Lemma start_tag_in_way cw ip ir mc o (attrs : list (string * string)) :
  start_element (mk (Some cw) true ip ir mc 2 o) "tag" attrs
  = mk (Some cw) true
       (ip || bool_decide (PyDict.get_default "k" attrs "" = "access")
              && bool_decide (PyDict.get_default "v" attrs "" = "private"))
       ir mc 3 (o +:+ render_way_tag cw attrs).
Proof.
  unfold start_element, set_depth, current_way_in, render_way_tag,
    construction_ways, oneway_ways.
  cbn [depth in_way current_way is_private is_residential modified_count out].
  change (2 + 1)%Z with 3%Z.
  rewrite (decide_False (P := 3%Z = 1%Z)) by done.
  rewrite (decide_False (P := "tag" = "way")) by done.
  rewrite (bool_decide_eq_true_2 ("tag" = "tag")) by done.
  cbn [andb].
  destruct (bool_decide (PyDict.get_default "k" attrs "" = "highway")) eqn:Hhw.
  - apply bool_decide_eq_true in Hhw. rewrite Hhw.
    rewrite (bool_decide_eq_false_2 ("highway" = "access")) by done.
    rewrite (bool_decide_eq_false_2 ("highway" = "oneway")) by done.
    rewrite !andb_true_r, !andb_false_r, orb_false_r. cbn [andb].
    destruct (bool_decide (cw ∈ _)); [done|].
    destruct (bool_decide (PyDict.get_default "v" attrs "" = "construction"));
      [done|].
    by rewrite !write_attrs_eq, !write_write, !append_assoc.
  - rewrite !andb_false_r. cbn [andb].
    destruct (bool_decide (PyDict.get_default "k" attrs "" = "oneway")) eqn:How.
    + apply bool_decide_eq_true in How. rewrite How.
      rewrite (bool_decide_eq_false_2 ("oneway" = "access")) by done.
      rewrite !andb_true_r, orb_false_r. cbn [andb].
      destruct (bool_decide (cw ∈ _)).
      * unfold write. simpl. by rewrite append_nil_r.
      * by rewrite !write_attrs_eq, !write_write, !append_assoc.
    + rewrite !andb_false_r.
      destruct (bool_decide (PyDict.get_default "k" attrs "" = "access")
                && bool_decide (PyDict.get_default "v" attrs "" = "private")).
      * by rewrite orb_true_r, append_nil_r.
      * rewrite orb_false_r.
        by rewrite !write_attrs_eq, !write_write, !append_assoc.
Qed.
(** Another child of a way: an [nd], or an element of another name. *)
Lemma start_other_in_way cw ip ir mc o name (attrs : list (string * string)) :
  name ≠ "way" → name ≠ "tag" →
  start_element (mk (Some cw) true ip ir mc 2 o) name attrs
  = mk (Some cw) true ip ir mc 3
       (o +:+ "    <" +:+ name +:+ render_attrs attrs
          +:+ (if decide (name = "nd") then "/>" else ">") +:+ nl).
Proof.
  intros Hway Htag. unfold start_element, set_depth.
  cbn [depth in_way current_way is_private is_residential modified_count out].
  change (2 + 1)%Z with 3%Z.
  rewrite (decide_False (P := 3%Z = 1%Z)) by done.
  rewrite (decide_False (P := name = "way")) by done.
  rewrite (bool_decide_eq_false_2 (name = "tag")) by done. cbn [andb].
  destruct (decide (name = "nd")) as [->|Hnd].
  - rewrite (bool_decide_eq_true_2 ("nd" = "nd")) by done.
    by rewrite !write_attrs_eq, !write_write, !append_assoc.
  - rewrite (bool_decide_eq_false_2 (name = "nd")) by done.
    by rewrite !write_attrs_eq, !write_write, !append_assoc.
Qed.

Lemma end_child_in_way cw ip ir mc o name :
  name ≠ "way" →
  end_element (mk (Some cw) true ip ir mc 3 o) name
  = mk (Some cw) true ip ir mc 2
       (o +:+ (if decide (name = "tag") then ""
               else if decide (name = "nd") then ""
               else "    </" +:+ name +:+ ">" +:+ nl)).
Proof.
  intros Hway. unfold end_element, set_depth.
  cbn [depth in_way current_way is_private is_residential modified_count out].
  rewrite (bool_decide_eq_false_2 (name = "way")) by done. cbn [andb].
  rewrite (decide_False (P := 3%Z = 1%Z)) by done.
  destruct (decide (name = "tag")) as [->|Htag].
  { rewrite (bool_decide_eq_true_2 ("tag" = "tag")) by done.
    rewrite orb_true_r. cbn. by rewrite append_nil_r. }
  rewrite (bool_decide_eq_false_2 (name = "tag")) by done.
  destruct (decide (name = "nd")) as [->|Hnd].
  { rewrite (bool_decide_eq_true_2 ("nd" = "nd")) by done.
    cbn. by rewrite append_nil_r. }
  rewrite (bool_decide_eq_false_2 (name = "nd")) by done.
  cbn [orb negb]. unfold write. cbn. by rewrite ?append_assoc.
Qed.

(** The two events of a child of a way. *)
Lemma leaf_in_way cw ip ir mc o (n : nat) (l : Leaf.t) :
  Leaf.tag l ≠ "way" →
  process_events strip (mk (Some cw) true ip ir mc 2 o) n (leaf_events l)
  = (mk (Some cw) true (ip || is_private_access l) ir mc 2
        (o +:+ render_way_child strip cw l), (n + 1)%nat).
Proof.
  intros Hway. unfold leaf_events, render_way_child, is_private_access.
  rewrite process_start. destruct (decide (Leaf.tag l = "tag")) as [Htag|Htag].
  - rewrite Htag, start_tag_in_way.
    rewrite (bool_decide_eq_true_2 ("tag" = "tag")) by done.
    unfold write at 1.
    cbn [depth in_way current_way is_private is_residential modified_count out].
    rewrite process_end, end_child_in_way by done.
    rewrite (decide_True (P := "tag" = "tag")) by done.
    unfold process_events. cbn [foldl]. by rewrite append_nil_r, !append_assoc.
  - rewrite start_other_in_way by done.
    rewrite (bool_decide_eq_false_2 (Leaf.tag l = "tag")) by done.
    unfold write at 1.
    cbn [depth in_way current_way is_private is_residential modified_count out].
    rewrite process_end, end_child_in_way by done.
    rewrite (decide_False (P := Leaf.tag l = "tag")) by done.
    unfold process_events. cbn [foldl andb]. rewrite orb_false_r.
    destruct (decide (Leaf.tag l = "nd")) as [Hnd|Hnd]; [rewrite Hnd|];
      by rewrite ?append_nil_r, !append_assoc.
Qed.

Lemma children_in_way cw ip ir mc o (n : nat) (children : list Leaf.t) :
  (∀ l, l ∈ children → Leaf.tag l ≠ "way") →
  process_events strip (mk (Some cw) true ip ir mc 2 o) n
    (children ≫= leaf_events)
  = (mk (Some cw) true (ip || existsb is_private_access children) ir mc 2
        (o +:+ concat_str (render_way_child strip cw <$> children)),
     (n + length children)%nat).
Proof.
  revert ip o n. induction children as [|l children IH]; intros ip o n Hway.
  - cbn. rewrite orb_false_r, append_nil_r. by rewrite Nat.add_0_r.
  - rewrite bind_cons, process_events_app, leaf_in_way
      by apply Hway, list_elem_of_here.
    cbn [fst snd]. rewrite IH by (intros; by apply Hway, list_elem_of_further).
    rewrite fmap_cons, concat_str_cons, append_assoc. cbn [existsb length].
    rewrite orb_assoc. f_equal. lia.
Qed.

(** The two events of a child of an element that is no way. *)
Lemma leaf_outside_way cw ip ir mc o (n : nat) (l : Leaf.t) :
  Leaf.tag l ≠ "way" →
  process_events strip (mk cw false ip ir mc 2 o) n (leaf_events l)
  = (mk cw false ip ir mc 2 (o +:+ render_leaf strip l), (n + 1)%nat).
Proof.
  intros Hway. unfold leaf_events, render_leaf.
  rewrite process_start, process_end.
  unfold start_element, end_element, set_depth.
  cbn [depth in_way current_way is_private is_residential modified_count out].
  change (2 + 1)%Z with 3%Z.
  rewrite (decide_False (P := 3%Z = 1%Z)) by done.
  rewrite (decide_False (P := Leaf.tag l = "way")) by done.
  cbn [andb]. rewrite !write_attrs_eq, !write_write.
  unfold write at 1 2.
  cbn [depth in_way current_way is_private is_residential modified_count out].
  rewrite (bool_decide_eq_false_2 (Leaf.tag l = "way")) by done. cbn [andb].
  rewrite (decide_False (P := 3%Z = 1%Z)) by done. cbn [negb].
  unfold write, process_events. cbn. by rewrite ?append_assoc.
Qed.

Lemma children_outside_way cw ip ir mc o (n : nat) (children : list Leaf.t) :
  (∀ l, l ∈ children → Leaf.tag l ≠ "way") →
  process_events strip (mk cw false ip ir mc 2 o) n (children ≫= leaf_events)
  = (mk cw false ip ir mc 2
        (o +:+ concat_str (render_leaf strip <$> children)),
     (n + length children)%nat).
Proof.
  revert o n. induction children as [|l children IH]; intros o n Hway.
  - cbn. rewrite append_nil_r. by rewrite Nat.add_0_r.
  - rewrite bind_cons, process_events_app, leaf_outside_way
      by apply Hway, list_elem_of_here.
    cbn [fst snd]. rewrite IH by (intros; by apply Hway, list_elem_of_further).
    rewrite fmap_cons, concat_str_cons, append_assoc. cbn [length].
    f_equal. lia.
Qed.
(** The events of a child of the root. *)
Lemma elem_step cw ip mc o (n : nat) (e : Elem.t) :
  (∀ l, l ∈ Elem.children e → Leaf.tag l ≠ "way") →
  ∃ cw' ip',
    process_events strip (mk cw false ip false mc 1 o) n (elem_events e)
    = (mk cw' false ip' false
          (mc + (if is_private_way e then 1 else 0))%nat 1
          (o +:+ render_elem strip e),
       (n + (1 + length (Elem.children e)))%nat).
Proof.
  intros Hshape. unfold elem_events, render_elem, is_private_way.
  rewrite process_start, process_events_app.
  unfold start_element, set_depth.
  cbn [depth in_way current_way is_private is_residential modified_count out].
  change (1 + 1)%Z with 2%Z.
  rewrite (decide_False (P := 2%Z = 1%Z)) by done.
  destruct (decide (Elem.tag e = "way")) as [Hway|Hway].
  - exists (Some (PyDict.get_default "id" (Elem.attrib e) "")),
      (existsb is_private_access (Elem.children e)).
    rewrite (bool_decide_eq_true_2 (Elem.tag e = "way")) by done.
    rewrite !write_attrs_eq, !write_write. unfold write.
    cbn [depth in_way current_way is_private is_residential modified_count out].
    rewrite children_in_way by done. cbn [fst snd orb andb].
    rewrite Hway, process_end. unfold end_element, set_depth.
    cbn [depth in_way current_way is_private is_residential modified_count out].
    rewrite (bool_decide_eq_true_2 ("way" = "way")) by done. cbn [andb].
    unfold write.
    cbn [depth in_way current_way is_private is_residential modified_count out].
    rewrite orb_false_r. unfold process_events. cbn [foldl].
    destruct (existsb is_private_access (Elem.children e));
      cbn [depth in_way current_way is_private is_residential modified_count
           out orb];
      rewrite ?Nat.add_0_r, !append_assoc; f_equal; lia.
  - exists cw, ip.
    rewrite (bool_decide_eq_false_2 (Elem.tag e = "way")) by done.
    cbn [andb]. rewrite !write_attrs_eq, !write_write. unfold write.
    cbn [depth in_way current_way is_private is_residential modified_count out].
    rewrite children_outside_way by done. cbn [fst snd].
    rewrite process_end. unfold end_element, set_depth.
    cbn [depth in_way current_way is_private is_residential modified_count out].
    rewrite (bool_decide_eq_false_2 (Elem.tag e = "way")) by done. cbn [andb].
    rewrite (decide_False (P := 2%Z = 1%Z)) by done. cbn [negb].
    unfold write, process_events. cbn [foldl].
    cbn [depth in_way current_way is_private is_residential modified_count out].
    (f_equal; [|lia]); f_equal; [lia|]. by rewrite ?append_assoc.
Qed.

Lemma elems_run cw ip mc o (n : nat) (elems : list Elem.t) :
  (∀ e l, e ∈ elems → l ∈ Elem.children e → Leaf.tag l ≠ "way") →
  ∃ cw' ip',
    process_events strip (mk cw false ip false mc 1 o) n
      (elems ≫= elem_events)
    = (mk cw' false ip' false
          (mc + length (filter (fun e => is_private_way e = true) elems))%nat
          1 (o +:+ concat_str (render_elem strip <$> elems)),
       (n + sum_over (fun e => 1 + length (Elem.children e)) elems)%nat).
Proof.
  revert cw ip mc o n.
  induction elems as [|e elems IH]; intros cw ip mc o n Hshape.
  - exists cw, ip. cbn. by rewrite append_nil_r, !Nat.add_0_r.
  - destruct (elem_step cw ip mc o n e) as (cw1 & ip1 & He).
    { intros l. apply Hshape, list_elem_of_here. }
    rewrite bind_cons, process_events_app, He. cbn [fst snd].
    destruct (IH cw1 ip1 (mc + (if is_private_way e then 1 else 0))%nat
                (o +:+ render_elem strip e)
                (n + (1 + length (Elem.children e)))%nat)
      as (cw2 & ip2 & Hrest).
    { intros e' l He'. by apply Hshape, list_elem_of_further. }
    exists cw2, ip2. rewrite Hrest.
    rewrite fmap_cons, concat_str_cons, append_assoc, filter_cons.
    cbn [sum_over foldr]. fold (sum_over (fun e => 1 + length (Elem.children e)) elems).
    (f_equal; [|lia]); f_equal.
    destruct (is_private_way e); [rewrite decide_True by done|
                                  rewrite decide_False by done]; simpl; lia.
Qed.

(** The run of the script over a document. *)
Lemma doc_run (d : Doc.t) :
  osm_shaped d →
  ∃ cw ip,
    process_events strip init 0 (doc_events d)
    = (mk cw false ip false
          (length (filter (fun e => is_private_way e = true) (Doc.elems d)))
          0 (render_doc strip d),
       (1 + sum_over (fun e => 1 + length (Elem.children e)) (Doc.elems d))%nat).
Proof.
  intros Hshape. unfold doc_events, render_doc.
  rewrite process_start, process_events_app.
  unfold start_element, set_depth, init.
  cbn [depth in_way current_way is_private is_residential modified_count out].
  change (0 + 1)%Z with 1%Z.
  rewrite (decide_True (P := 1%Z = 1%Z)) by done.
  rewrite !write_attrs_eq, !write_write. unfold write.
  cbn [depth in_way current_way is_private is_residential modified_count out].
  match goal with
  | |- context [process_events strip (mk ?cw0 false ?ip0 false ?mc0 1 ?o0) ?n0
                  (Doc.elems d ≫= elem_events)] =>
      destruct (elems_run cw0 ip0 mc0 o0 n0 (Doc.elems d) Hshape)
        as (cw & ip & Hrun)
  end.
  exists cw, ip. rewrite Hrun. cbn [fst snd]. rewrite process_end.
  unfold end_element, set_depth.
  cbn [depth in_way current_way is_private is_residential modified_count out].
  rewrite andb_false_r. rewrite (decide_True (P := 1%Z = 1%Z)) by done.
  unfold write, process_events. cbn [foldl].
  cbn [depth in_way current_way is_private is_residential modified_count out].
  rewrite !append_assoc. by change (1 - 1)%Z with 0%Z.
Qed.

Lemma osm_shaped_Forall (d : Doc.t) :
  Forall (fun e => Forall (fun l => Leaf.tag l ≠ "way") (Elem.children e))
         (Doc.elems d) →
  osm_shaped d.
Proof.
  intros H e l He Hl.
  apply (proj1 (Forall_forall _ _) (proj1 (Forall_forall _ _) H e He) l Hl).
Qed.
End handler_elements.



(** X17: on a document of the OSM shape, the number of modified ways that
    the script reports is the number of [way] children of the root that
    have a [tag] child with [k="access"] and [v="private"]; the number of
    processed elements is the number of elements of the document; and the
    handler ends outside any way, at depth 0. *)
Theorem modified_ways_are_private_ways (strip : string → string) (d : Doc.t) :
  osm_shaped d →
  let r := process_events strip OSMHandler.init 0 (doc_events d) in
  OSMHandler.modified_count r.1
  = length (filter (fun e => is_private_way e = true) (Doc.elems d))
  ∧ r.2 = (1 + sum_over (fun e => 1 + length (Elem.children e)) (Doc.elems d))%nat
  ∧ OSMHandler.depth r.1 = 0%Z
  ∧ OSMHandler.in_way r.1 = false
  ∧ OSMHandler.is_residential r.1 = false.
Proof.
  intros Hshape r. subst r.
  destruct (doc_run strip d Hshape) as (cw & ip & Hrun).
  by rewrite Hrun.
Qed.

Lemma modified_ways_are_private_ways_witness :
  osm_shaped ExOsm.doc
  ∧ OSMHandler.modified_count
      (process_events strip_blanks OSMHandler.init 0 (doc_events ExOsm.doc)).1
    = 1%nat.
Proof.
  assert (Hshape : osm_shaped ExOsm.doc)
    by (apply osm_shaped_Forall; by_compute).
  split; [exact Hshape|].
  exact (proj1 (modified_ways_are_private_ways strip_blanks ExOsm.doc Hshape)).
Defined.

(** X18: whatever the events are, every start event raises the depth of the
    handler by one and every end event lowers it by one, and the counter of
    processed elements grows by one at every start event. *)
Theorem depth_follows_events (strip : string → string)
    (h : OSMHandler.t) (n : nat) (evs : list event) :
  let r := process_events strip h n evs in
  OSMHandler.depth r.1
  = (OSMHandler.depth h + Z.of_nat (length (filter (fun ev => is_start ev = true) evs))
     - Z.of_nat (length (filter (fun ev => is_start ev = false) evs)))%Z
  ∧ r.2 = (n + length (filter (fun ev => is_start ev = true) evs))%nat.
Proof.
  cbv zeta. revert h n. induction evs as [|ev evs IH]; intros h n.
  - cbn. split; lia.
  - destruct ev as [tag attrib text|tag].
    + rewrite process_start. destruct (IH
        (OSMHandler.write (OSMHandler.start_element h tag attrib)
           (render_text strip
              (OSMHandler.depth (OSMHandler.start_element h tag attrib)) text))
        (n + 1)%nat) as [Hd Hn].
      rewrite Hd, Hn. unfold OSMHandler.write at 1.
      cbn [OSMHandler.depth]. rewrite depth_start_element.
      rewrite !filter_cons. cbn [is_start].
      rewrite decide_True, decide_False by done. cbn [length]. split; lia.
    + rewrite process_end. destruct (IH (OSMHandler.end_element h tag) n)
        as [Hd Hn].
      rewrite Hd, Hn, depth_end_element. rewrite !filter_cons. cbn [is_start].
      rewrite decide_False, decide_True by done. cbn [length]. split; lia.
Qed.

(** * Parsing, then querying *)



Section headers.
Context {float : Type}.

End headers.



Lemma occurrences_bucket_build w n (ways : ways_t) :
  PyDict.wf ways →
  occurrences w (bucket n (build_node_to_ways_index ways))
  = occurrences n (PyDict.get_default w ways []).
Proof.
  rewrite bucket_build. unfold PyDict.wf, PyDict.keys, PyDict.get_default.
  induction ways as [|[w' refs] ways IH]; [done|].
  rewrite fmap_cons. intros [Hw Hnd]%NoDup_cons. specialize (IH Hnd).
  rewrite bind_cons, occurrences_app, occurrences_replicate, IH.
  cbn [PyDict.get fst]. destruct (decide (w' = w)) as [->|Hne]; [|done].
  rewrite (proj2 (get_None_keys ways w)) by done. simpl. lia.
Qed.

Section parsed_facts.
Context {float : Type} (parse_float : string → option float).

(** The dataset that a successful parse returns. *)
Lemma parsed_ways (file_path : string) (root : Root.t) nodes ways way_tags :
  (parse_osm_file parse_float file_path root).2 = Some (nodes, ways, way_tags) →
  ways = foldl (fun ways way =>
                  PyDict.set (WayElem.id way) (WayElem.nd way) ways)
               [] (Root.ways root)
  ∧ way_tags = foldl (fun way_tags way =>
                        PyDict.set (WayElem.id way)
                          (foldl (fun tags '(k, v) => PyDict.set k v tags)
                                 [] (WayElem.tag way)) way_tags)
                     [] (Root.ways root).
Proof.
  rewrite parse_osm_file_closed. cbn [snd].
  destruct (for_fold _ _ _).2 as [nodes'|]; [|done]. by intros [= <- <- <-].
Qed.
End parsed_facts.

(** X20: in the index built from a parsed document, a way id occurs in the
    bucket of a node as many times as the node occurs among the [nd]
    children of the last [way] element with that id; the earlier elements
    with the same id contribute nothing. *)
Theorem parsed_index_multiplicity {float : Type}
    (parse_float : string → option float)
    (file_path : string) (root : Root.t) nodes ways way_tags (w n : string) :
  (parse_osm_file parse_float file_path root).2 = Some (nodes, ways, way_tags) →
  occurrences w (bucket n (build_node_to_ways_index ways))
  = occurrences n
      (default [] (WayElem.nd <$> last_with WayElem.id w (Root.ways root))).
Proof.
  intros [-> _]%parsed_ways.
  rewrite occurrences_bucket_build
    by (apply (wf_foldl_set WayElem.id WayElem.nd); [done | apply NoDup_nil_2]).
  unfold PyDict.get_default.
  rewrite (get_foldl_set WayElem.id WayElem.nd) by done.
  by destruct (last_with WayElem.id w (Root.ways root)).
Qed.

Lemma parsed_index_multiplicity_witness :
  occurrences "W3"
    (bucket "A"
       (build_node_to_ways_index
          [("W1", ["A"; "B"]); ("W3", ["B"; "C"]); ("W2", ["B"; "C"])]))
  = 0.
Proof.
  exact (parsed_index_multiplicity decimal "f.osm" ExDoc.root _ _ _
           "W3" "A" eq_refl).
Defined.


